(** * GBStools: genotype likelihoods, EM bookkeeping and likelihood ratios

    A shallow embedding of [gbstools/parser.py]: the pileup genotype
    likelihood model ([_PileupData]), the per-sample record ([CallData]),
    the pedigree selection of [Reader.parse_ped] and the EM bookkeeping of
    [Marker] and [PedMarker].

    Numbers.  A Python [float] is modelled by [pyfloat]: a real number, or
    one of the three special values [inf], [-inf], [nan].  Arithmetic on the
    finite part is exact real arithmetic (rounding and overflow are not
    modelled); the special values follow IEEE 754 as Python exposes it.
    Underflow is modelled where the code takes the logarithm of what may
    have underflowed: [math.e ** x] is [0.0] once [x] is low enough (see
    [pyexp]).  Where the source can only ever see finite values (the
    pileup model, the seeds of [Marker.__init__]) plain [R] is used.

    Exceptions.  A Python call that may raise returns [result A]; a
    [try: ... except:] is a [match] on that result. *)

From Stdlib Require Import Reals Lra Lia ZArith List String Ascii Bool Permutation.
Import ListNotations.
Open Scope R_scope.

(* ================================================================== *)
(** * Python values *)
(* ================================================================== *)

Module Py.

Inductive exn : Type :=
| KeyError | TypeError | ValueError | IndexError | SolverError.

Inductive result (A : Type) : Type :=
| Ok (a : A)
| Raise (e : exn).
Arguments Ok {A} a.
Arguments Raise {A} e.

Definition bind {A B : Type} (m : result A) (k : A -> result B) : result B :=
  match m with
  | Ok a => k a
  | Raise e => Raise e
  end.

(** [for x in xs: acc = body(acc, x)], stopping at the first exception. *)
Fixpoint for_each {A B : Type} (body : B -> A -> result B)
         (xs : list A) (acc : B) : result B :=
  match xs with
  | [] => Ok acc
  | x :: xs' => bind (body acc x) (for_each body xs')
  end.

(** [[f(x) for x in xs]]. *)
Fixpoint comprehension {A B : Type} (f : A -> result B) (xs : list A)
  : result (list B) :=
  match xs with
  | [] => Ok []
  | x :: xs' =>
      bind (f x) (fun y => bind (comprehension f xs') (fun ys => Ok (y :: ys)))
  end.

(** [xs[-1]]. *)
Definition last_item {A : Type} (xs : list A) : result A :=
  match rev xs with
  | [] => Raise IndexError
  | x :: _ => Ok x
  end.

(** [xs[-2]]. *)
Definition second_last_item {A : Type} (xs : list A) : result A :=
  match rev xs with
  | _ :: x :: _ => Ok x
  | _ => Raise IndexError
  end.

(** [xs[i]] for a non-negative index. *)
Definition item {A : Type} (xs : list A) (i : nat) : result A :=
  match nth_error xs i with
  | Some x => Ok x
  | None => Raise IndexError
  end.

(** [s[i]] on a string, for a non-negative index. *)
Definition str_item (s : string) (i : nat) : result ascii :=
  match String.get i s with
  | Some c => Ok c
  | None => Raise IndexError
  end.

(** [ord(c)]. *)
Definition ord (c : ascii) : Z := Z.of_nat (nat_of_ascii c).

(** A one-character string compared with a string: [base == self.ref]. *)
Definition char_eq_str (c : ascii) (s : string) : bool :=
  String.eqb (String c EmptyString) s.

(** [d[k]] on a dict written as an association list. *)
Fixpoint getitem {V : Type} (d : list (string * V)) (k : string) : result V :=
  match d with
  | [] => Raise KeyError
  | (k', v) :: d' => if String.eqb k' k then Ok v else getitem d' k
  end.

Definition Rltb (x y : R) : bool := if Rlt_dec x y then true else false.

(** ** Floats *)

Inductive pyfloat : Type :=
| Fin (x : R)
| PInf
| NInf
| NaN.

Definition fneg (a : pyfloat) : pyfloat :=
  match a with
  | Fin x => Fin (- x)
  | PInf => NInf
  | NInf => PInf
  | NaN => NaN
  end.

Definition fadd (a b : pyfloat) : pyfloat :=
  match a, b with
  | NaN, _ | _, NaN => NaN
  | Fin x, Fin y => Fin (x + y)
  | PInf, NInf | NInf, PInf => NaN
  | PInf, _ | _, PInf => PInf
  | NInf, _ | _, NInf => NInf
  end.

Definition fsub (a b : pyfloat) : pyfloat := fadd a (fneg b).

Definition fabs (a : pyfloat) : pyfloat :=
  match a with
  | Fin x => Fin (Rabs x)
  | PInf | NInf => PInf
  | NaN => NaN
  end.

(** [c * a] for a finite, non-zero constant [c] (here: [-2.0 * a]). *)
Definition fscale (c : R) (a : pyfloat) : pyfloat :=
  match a with
  | Fin x => Fin (c * x)
  | PInf => if Rltb 0 c then PInf else NInf
  | NInf => if Rltb 0 c then NInf else PInf
  | NaN => NaN
  end.

(** [a / n] for a positive int literal [n] (here: [/ 9] and [/ 27]). *)
Definition fdiv_lit (a : pyfloat) (n : R) : pyfloat :=
  match a with
  | Fin x => Fin (x / n)
  | other => other
  end.

(** Where [math.e ** x] leaves the normal floats.  Below [exp_floor] the
    exact value is under [2 ** -1075], half the least subnormal float, and
    the float is [0.0].  From [exp_normal] on, the exact value divided by
    27 is at least [2 ** -1022], the least normal float.  Between the two
    the float is subnormal or [0.0] and the rounding this model leaves out
    is not small; what is stated below about sums of such terms keeps out
    of that range. *)
Definition exp_floor : R := - (1075 * ln 2).

(** [math.e ** x] for a finite [x]: [0.0] below [exp_floor], no exception.
    (For [x] above about 709.78 Python raises [OverflowError].  The one
    use, in [PedMarker.likelihood_ratio], passes [loglik - maxlik] with
    [maxlik] the [max] of the same values: a finite difference is never
    positive there, so that exception is left out.) *)
Definition pyexp (x : R) : R := if Rltb x exp_floor then 0 else exp x.

(** [math.e ** a]. *)
Definition fexp (a : pyfloat) : pyfloat :=
  match a with
  | Fin x => Fin (pyexp x)
  | PInf => PInf
  | NInf => Fin 0
  | NaN => NaN
  end.

(** [math.log(a)]: a domain error for zero, negatives and [-inf]. *)
Definition flog (a : pyfloat) : result pyfloat :=
  match a with
  | Fin x => if Rltb 0 x then Ok (Fin (ln x)) else Raise ValueError
  | PInf => Ok PInf
  | NInf => Raise ValueError
  | NaN => Ok NaN
  end.

(** [a > b]; every comparison with [nan] is false. *)
Definition fgtb (a b : pyfloat) : bool :=
  match a, b with
  | NaN, _ | _, NaN => false
  | Fin x, Fin y => Rltb y x
  | PInf, PInf => false
  | PInf, _ => true
  | Fin _, NInf => true
  | _, _ => false
  end.

(** [a == b]. *)
Definition feqb (a b : pyfloat) : bool :=
  match a, b with
  | Fin x, Fin y => if Req_dec_T x y then true else false
  | PInf, PInf => true
  | NInf, NInf => true
  | _, _ => false
  end.

(** A value that is [None] or a float. *)
Definition pyval : Type := option pyfloat.

(** [a - b]; [None] is not a number. *)
Definition py_sub (a b : pyval) : result pyfloat :=
  match a, b with
  | Some x, Some y => Ok (fsub x y)
  | _, _ => Raise TypeError
  end.

(** [a > b] in Python 2, where [None] sorts below every number. *)
Definition py_gt (a b : pyval) : bool :=
  match a, b with
  | None, _ => false
  | Some _, None => true
  | Some x, Some y => fgtb x y
  end.

(** [a == b]. *)
Definition py_eq (a b : pyval) : bool :=
  match a, b with
  | None, None => true
  | Some x, Some y => feqb x y
  | _, _ => false
  end.

(** [max(a, b)] on two floats: [b] wins only when [b > a]. *)
Definition fmax2 (a b : pyfloat) : pyfloat := if fgtb b a then b else a.

(** [max(xs, key=key)]: the first item whose key no later item exceeds. *)
Definition max_by {A K : Type} (gt : K -> K -> bool) (key : A -> K)
           (xs : list A) : result A :=
  match xs with
  | [] => Raise ValueError
  | x :: xs' =>
      Ok (fold_left (fun m y => if gt (key y) (key m) then y else m) xs' x)
  end.

(** The base-10 logarithm the likelihood terms are stated in. *)
Definition log10 (x : R) : R := ln x / ln 10.

(** [math.log(x, b)] on finite floats. *)
Definition math_log (x b : R) : result R :=
  if Rltb 0 x then Ok (ln x / ln b) else Raise ValueError.

(** A number is needed where the table may hold [None]. *)
Definition number (v : option R) : result R :=
  match v with
  | Some x => Ok x
  | None => Raise TypeError
  end.

End Py.

Import Py.

Notation "x <- m ;; k" := (bind m (fun x => k))
  (at level 61, m at next level, right associativity).

(* ================================================================== *)
(** * The pileup genotype-likelihood model: [_PileupData] *)
(* ================================================================== *)

Module Pileup.

(** [CONFUSION_MATRIX], keyed by [actual base][read base]. *)
Definition CONFUSION_MATRIX : list (string * list (string * option R)) :=
  [ ("A", [("A", None); ("C", Some 0.577); ("G", Some 0.171); ("T", Some 0.252)]);
    ("C", [("A", Some 0.349); ("C", None); ("G", Some 0.113); ("T", Some 0.539)]);
    ("G", [("A", Some 0.319); ("C", Some 0.051); ("G", None); ("T", Some 0.630)]);
    ("T", [("A", Some 0.458); ("C", Some 0.221); ("G", Some 0.320); ("T", None)]) ]%string.

(** [CONFUSION_MATRIX[a][b]]. *)
Definition confusion (a b : string) : result (option R) :=
  row <- getitem CONFUSION_MATRIX a ;;
  getitem row b.

(** What the model reads of a pysam [PileupRead]: the aligned sequence, its
    quality string, the position of the locus in the read, and the mapping
    quality of the alignment. *)
Record PileupRead : Type := mkRead {
  seq : string;
  qual : string;
  qpos : nat;
  mapq : Z
}.

(** The three running sums [(homref_lik, het_lik, homnonref_lik)]. *)
Definition lik3 : Type := (R * R * R)%type.

(** The base-call error rate [10**(-(ord(qual) - offset) / 10.0)]. *)
Definition error_rate (q : ascii) (offset : Z) : R :=
  Rpower 10 (- IZR (ord q - offset) / 10).

(** One turn of the [for read in self.reads] loop of [calculate_pl]. *)
Definition accumulate (ref alt : string) (offset : Z)
           (lik : lik3) (read : PileupRead) : result lik3 :=
  let '(homref_lik, het_lik, homnonref_lik) := lik in
  base <- str_item (seq read) (qpos read) ;;
  pr_ref <- confusion ref alt ;;
  pr_alt <- confusion alt ref ;;
  q <- str_item (qual read) (qpos read) ;;
  let epsilon := error_rate q offset in
  if char_eq_str base ref then
    t_ref <- math_log (1 - epsilon) 10 ;;
    p <- number pr_alt ;;
    t_het <- math_log ((1 - epsilon * (1 + p)) / 2) 10 ;;
    t_alt <- math_log (epsilon * p) 10 ;;
    Ok (homref_lik + t_ref, het_lik + t_het, homnonref_lik + t_alt)
  else if char_eq_str base alt then
    p <- number pr_ref ;;
    t_ref <- math_log (epsilon * p) 10 ;;
    t_het <- math_log ((1 - epsilon * (1 + p)) / 2) 10 ;;
    t_alt <- math_log (1 - epsilon) 10 ;;
    Ok (homref_lik + t_ref, het_lik + t_het, homnonref_lik + t_alt)
  else
    Ok (homref_lik, het_lik, homnonref_lik).

(** The sums after the whole loop. *)
Definition likelihoods (reads : list PileupRead) (ref alt : string)
           (offset : Z) : result lik3 :=
  for_each (accumulate ref alt offset) reads (0, 0, 0).

(** [max(lik)] on the triple. *)
Definition max3 (lik : lik3) : R :=
  let '(a, b, c) := lik in Rmax (Rmax a b) c.

(** [sum(lik)] on the triple. *)
Definition sum3 (lik : lik3) : R :=
  let '(a, b, c) := lik in 0 + a + b + c.

(** The triple as the list [[homref_lik, het_lik, homnonref_lik]]. *)
Definition entries (lik : lik3) : list R :=
  let '(a, b, c) := lik in [a; b; c].

(** [[-10 * (l - maxlik) for l in lik]]. *)
Definition normalize (lik : lik3) : list R :=
  let '(a, b, c) := lik in
  let maxlik := max3 lik in
  [ -10 * (a - maxlik); -10 * (b - maxlik); -10 * (c - maxlik) ].

(** [_PileupData.calculate_pl]. *)
Definition calculate_pl (reads : list PileupRead) (ref alt : string)
           (offset : Z) : result (option (list R)) :=
  lik <- likelihoods reads ref alt offset ;;
  if Rltb (sum3 lik) 0 then Ok (Some (normalize lik)) else Ok None.

(** A read is informative when its base at the locus is the reference or
    the alternate allele. *)
Definition informative (ref alt : string) (read : PileupRead) : bool :=
  match str_item (seq read) (qpos read) with
  | Ok base => char_eq_str base ref || char_eq_str base alt
  | Raise _ => false
  end.

(** The [DP] and [PL] entries of [_PileupData.data]. *)
Record PileupData : Type := mkPileupData {
  data_DP : Z;
  data_PL : option (list R)
}.

(** [_PileupData.__init__], as far as [DP] and [PL] go.  [column] is the
    first pileup column ([None] when the iterator has none, which the source
    catches); the read-tag fields ([inserts], [INS], [self_rs], [mate_rs])
    do not touch [DP] or [PL] and are left out. *)
Definition PileupData_init (column : option (list PileupRead))
           (ref alt : string) (maxcovg : nat) (offset : Z) : PileupData :=
  let reads :=
    match column with
    | Some pileups => firstn maxcovg (filter (fun r => (0 <? mapq r)%Z) pileups)
    | None => []
    end in
  let dp := Z.of_nat (List.length reads) in
  let pl :=
    match calculate_pl reads ref alt offset with
    | Ok pl => pl
    | Raise _ => None
    end in
  mkPileupData dp pl.

End Pileup.

(* ================================================================== *)
(** * Per-sample records: [CallData] *)
(* ================================================================== *)

Module Call.

(** A number handed to [int(...)]: PyVCF supplies ints, the pileup model
    floats. *)
Inductive pynum : Type :=
| PyInt (z : Z)
| PyFloat (x : R).

(** [int(x)]: truncation towards zero. *)
Definition py_int (v : pynum) : Z :=
  match v with
  | PyInt z => z
  | PyFloat x => if Rltb x 0 then (- Int_part (- x))%Z else Int_part x
  end.

Record CallData : Type := mkCall {
  sample : string;
  DP : Z;
  PL : option (list Z);
  is_father : bool;
  is_mother : bool;
  is_child : bool
}.

(** [CallData.__init__] for the keywords [DP] and [PL].  A keyword that is
    not passed is the outer [None]; a keyword passed as [None] is
    [Some None].  The remaining keywords ([NF], [inserts], [INS],
    [self_rs], [mate_rs]) are stored as given and are left out. *)
Definition CallData_init (name : string) (kw_DP : option (option Z))
           (kw_PL : option (option (list pynum))) : CallData :=
  let dp :=
    match kw_DP with
    | None => 0%Z
    | Some None => 0%Z
    | Some (Some d) => d
    end in
  let pl :=
    match kw_PL with
    | Some (Some (x :: xs)) => Some (map py_int (x :: xs))
    | _ => None
    end in
  mkCall name dp pl false false false.

(** [_Samfile.pileup]: a record built from a pileup. *)
Definition pileup (name : string) (column : option (list Pileup.PileupRead))
           (ref alt : string) : CallData :=
  let data := Pileup.PileupData_init column ref alt 250 33 in
  CallData_init name (Some (Some (Pileup.data_DP data)))
                (Some (option_map (map PyFloat) (Pileup.data_PL data))).

(** Truth value of [call.PL]. *)
Definition has_PL (c : CallData) : bool :=
  match PL c with
  | Some (_ :: _) => true
  | _ => false
  end.

End Call.

(* ================================================================== *)
(** * Pedigree selection: [Reader.parse_ped] *)
(* ================================================================== *)

Module Ped.

Record Family : Type := mkFamily {
  father : string;
  mother : string;
  children : list string
}.

(** A key of the [offspring] dict: the tuple [(father, mother)]. *)
Definition parents : Type := (string * string)%type.

Definition parents_eqb (a b : parents) : bool :=
  String.eqb (fst a) (fst b) && String.eqb (snd a) (snd b).

(** [len(x)] for a key [x] of [offspring]: the length of a 2-tuple. *)
Definition tuple_len (x : parents) : Z := 2%Z.

(** The [offspring] dict, its keys kept in the order of first insertion. *)
Definition offspring_dict : Type := list (parents * list string).

(** [try: offspring[k].append(indiv_id) except: offspring[k] = [indiv_id]]. *)
Fixpoint add_child (offspring : offspring_dict) (k : parents)
         (indiv_id : string) : offspring_dict :=
  match offspring with
  | [] => [(k, [indiv_id])]
  | (k', cs) :: rest =>
      if parents_eqb k' k then (k', cs ++ [indiv_id]) :: rest
      else (k', cs) :: add_child rest k indiv_id
  end.

(** [offspring[k]]. *)
Fixpoint lookup (offspring : offspring_dict) (k : parents)
  : result (list string) :=
  match offspring with
  | [] => Raise KeyError
  | (k', cs) :: rest => if parents_eqb k' k then Ok cs else lookup rest k
  end.

(** [indiv_id in self.samples]. *)
Definition mem (x : string) (xs : list string) : bool :=
  existsb (String.eqb x) xs.

(** The body of [for line in ped], on a line already stripped and split on
    white space; the unpacking needs exactly six fields. *)
Definition read_line (samples : list string) (offspring : offspring_dict)
           (fields : list string) : result offspring_dict :=
  match fields with
  | [fam_id; indiv_id; fa; mo; sex; pheno] =>
      if mem indiv_id samples then Ok (add_child offspring (fa, mo) indiv_id)
      else Ok offspring
  | _ => Raise ValueError
  end.

Section ParsePed.

(** A Python 2 dict walks its keys in an order fixed by the keys and the
    order of their insertion, not by the values: [dict_iter ks] is the walk
    of a dict whose keys were inserted in the order [ks]. *)
Variable dict_iter : list parents -> list parents.

(** [Reader.parse_ped], on the lines of the PED file. *)
Definition parse_ped (samples : list string) (ped : list (list string))
  : result Family :=
  offspring <- for_each (read_line samples) ped [] ;;
  k <- max_by Z.gtb tuple_len (dict_iter (map fst offspring)) ;;
  cs <- lookup offspring k ;;
  Ok (mkFamily (fst k) (snd k) cs).

End ParsePed.

(** The parent pair of a parsed family, when there is one. *)
Definition parents_of (r : result Family) : option parents :=
  match r with
  | Ok f => Some (father f, mother f)
  | Raise _ => None
  end.

(** The number of children recorded for a pair ([0] for an unknown pair). *)
Definition family_size (offspring : offspring_dict) (k : parents) : nat :=
  match lookup offspring k with
  | Ok cs => List.length cs
  | Raise _ => 0%nat
  end.

End Ped.

(* ================================================================== *)
(** * Unrelated samples: [Marker] *)
(* ================================================================== *)

Module Unrelated.

Import Call.

(** What the solver leaves in [exp_phi] and [exp_delta]: per-sample
    expectations, carried along untouched here. *)
Definition expectations : Type := list (string * list pyfloat).

(** One parameter snapshot: a dict with exactly these keys. *)
Record snapshot : Type := mkSnapshot {
  phi : list pyfloat;
  lambda : pyval;
  delta : pyval;
  fail : bool;
  loglik : pyval;
  exp_phi : option expectations;
  exp_delta : option expectations
}.

(** [p = s.copy(); p['fail'] = True]. *)
Definition copy_failed (s : snapshot) : snapshot :=
  mkSnapshot (phi s) (lambda s) (delta s) true (loglik s)
             (exp_phi s) (exp_delta s).

Record Marker : Type := mkMarker {
  calls : list CallData;
  param_H1 : list snapshot;
  param_H0 : list snapshot;
  disp : option R;
  lik_ratio : pyval
}.

(** [self.record.INFO['AF']]: [None] when the lookup raises, else the list
    of values, where a missing value ([.]) is [None]. *)
Definition AF_info : Type := option (list (option R)).

(** [try: af = min(0.9999, self.record.INFO['AF'][0]) except: af = 0.01].
    In Python 2, [min(0.9999, None)] is [None]. *)
Definition seed_af (info : AF_info) : option R :=
  match info with
  | Some (Some x :: _) => Some (if Rltb x 0.9999 then x else 0.9999)
  | Some (None :: _) => None
  | _ => Some 0.01
  end.

Definition dfreq : R := 0.01.

(** [not bool([call.PL for call in calls if call.PL])]. *)
Definition dp_mode (cs : list CallData) : bool :=
  negb (existsb has_PL cs).

(** The seeds [(phi0, phi0_null)]. *)
Definition seed_phi (info : AF_info) (cs : list CallData)
  : result (list pyfloat * list pyfloat) :=
  if dp_mode cs then
    Ok ([Fin (1 - dfreq); Fin 0; Fin dfreq], [Fin 1; Fin 0; Fin 0])
  else
    af <- number (seed_af info) ;;
    Ok ([Fin ((1 - af) * (1 - dfreq)); Fin (af * (1 - dfreq)); Fin dfreq],
        [Fin (1 - af); Fin af; Fin 0]).

(** [sum([call.DP for call in calls])]. *)
Definition total_depth (cs : list CallData) : Z :=
  fold_right Z.add 0%Z (map DP cs).

(** [sum([call.DP == 0 for call in calls])]. *)
Definition missing (cs : list CallData) : Z :=
  Z.of_nat (List.length (filter (fun c => (DP c =? 0)%Z) cs)).

(** [Marker.__init__]. *)
Definition Marker_init (info : AF_info) (cs : list CallData)
           (slope intercept : R) : result Marker :=
  seeds <- seed_phi info cs ;;
  let '(phi0, phi0_null) := seeds in
  let dp := total_depth cs in
  let n := Z.of_nat (List.length cs) in
  let '(lambda0, disp0, delta0, fail0) :=
    if (0 <? dp)%Z then
      let lambda0 := IZR dp / IZR (n - missing cs) in
      (Some (Fin lambda0),
       Some (slope * lambda0 + intercept),
       Some (Fin (Rmax (IZR (missing cs) / IZR n) 0.01)),
       false)
    else (None, None, None, true) in
  Ok (mkMarker cs
        [mkSnapshot phi0 lambda0 delta0 fail0 None None None]
        [mkSnapshot phi0_null lambda0 delta0 fail0 None None None]
        disp0 None).

(** [Marker.check_convergence]. *)
Definition check_convergence (param : list snapshot)
           (phi_tol lamb_tol delta_tol : pyfloat) : result bool :=
  cur <- last_item param ;;
  if fail cur then Ok true
  else if (1 <? List.length param)%nat then
    prev <- second_last_item param ;;
    c1 <- item (phi cur) 1 ;;
    p1 <- item (phi prev) 1 ;;
    c2 <- item (phi cur) 2 ;;
    p2 <- item (phi prev) 2 ;;
    let phi_diff := fmax2 (fabs (fsub c1 p1)) (fabs (fsub c2 p2)) in
    dl <- py_sub (lambda cur) (lambda prev) ;;
    let lamb_diff := fabs dl in
    dd <- py_sub (delta cur) (delta prev) ;;
    let delta_diff := fabs dd in
    if fgtb phi_diff phi_tol || fgtb lamb_diff lamb_tol
       || fgtb delta_diff delta_tol
    then Ok false else Ok true
  else Ok false.

(** [Marker.likelihood_ratio]: any exception gives [None]. *)
Definition likelihood_ratio (m : Marker) : pyval :=
  match (h0 <- last_item (param_H0 m) ;;
         h1 <- last_item (param_H1 m) ;;
         d <- py_sub (loglik h0) (loglik h1) ;;
         Ok (fscale (-2) d)) with
  | Ok lr => Some lr
  | Raise _ => None
  end.

Section Solver.

(** The single-step solver [em.update(param, calls, disp)]. *)
Variable em_update : snapshot -> list CallData -> option R -> result snapshot.

(** [Marker.update_param]. *)
Definition update_param (m : Marker) (param : list snapshot)
  : result snapshot :=
  cur <- last_item param ;;
  match em_update cur (calls m) (disp m) with
  | Ok param_new => Ok param_new
  | Raise _ => Ok (copy_failed cur)
  end.

(** Modelled from the spec: the loop that drives one track, which is not
    part of [parser.py].  Each turn asks the convergence check; a terminal
    track is left as it is, otherwise the solver is called on the last
    snapshot and what it returns is appended.  [cap] is the configured
    iteration cap. *)
Fixpoint run_track (cap : nat) (m : Marker) (phi_tol lamb_tol delta_tol : pyfloat)
         (param : list snapshot) : result (list snapshot) :=
  match cap with
  | O => Ok param
  | S cap' =>
      done <- check_convergence param phi_tol lamb_tol delta_tol ;;
      if done then Ok param
      else
        param_new <- update_param m param ;;
        run_track cap' m phi_tol lamb_tol delta_tol (param ++ [param_new])
  end.

End Solver.

End Unrelated.

(* ================================================================== *)
(** * Trios: [PedMarker] *)
(* ================================================================== *)

Module Trio.

Import Call.

(** Allele counts [(ref, alt, dropout)] of one individual. *)
Definition genotype : Type := (Z * Z * Z)%type.

(** [gt[2]]: the dropout allele count. *)
Definition dropout (g : genotype) : Z := snd g.

(** A joint parental genotype: a named tuple with fields [father] and
    [mother]. *)
Record geno : Type := mkGeno {
  father : genotype;
  mother : genotype
}.

(** Modelled from the spec: the six genotypes of one individual, in the
    order the data model lists them. *)
Definition genotypes : list genotype :=
  [ (2, 0, 0); (1, 1, 0); (1, 0, 1); (0, 2, 0); (0, 1, 1); (0, 0, 2) ]%Z.

(** Modelled from the spec: the table [em.trio_gt], which is not part of
    [parser.py]: every pair of a father's and a mother's genotype. *)
Definition trio_gt : list geno :=
  flat_map (fun f => map (fun m => mkGeno f m) genotypes) genotypes.

(** [geno.father[2] == 0 and geno.mother[2] == 0]. *)
Definition is_null (g : geno) : bool :=
  (dropout (father g) =? 0)%Z && (dropout (mother g) =? 0)%Z.


(** One parameter snapshot of a track. *)
Record snapshot : Type := mkSnapshot {
  lambda : pyval;
  fail : bool;
  loglik : pyval
}.

(** [p = s.copy(); p['fail'] = True], and [p['fail'] = True] in place. *)
Definition set_failed (s : snapshot) : snapshot :=
  mkSnapshot (lambda s) true (loglik s).

(** [self.param]: a dict from joint genotypes to histories, written in the
    order in which the dict is walked. *)
Definition tracks : Type := list (geno * list snapshot).

Record PedMarker : Type := mkPedMarker {
  calls : list CallData;
  param : tracks;
  disp : option R;
  lik_ratio : pyval
}.

(** [PedMarker.__init__]. *)
Definition PedMarker_init (cs : list CallData) (slope intercept : R)
  : PedMarker :=
  let dp := Unrelated.total_depth cs in
  let n := Z.of_nat (List.length cs) in
  let '(lambda0, disp0, fail0) :=
    if (0 <? dp)%Z then
      let lambda0 := IZR dp / IZR (n - Unrelated.missing cs) in
      (Some (Fin lambda0), Some (slope * lambda0 + intercept), false)
    else (None, None, true) in
  mkPedMarker cs
    (map (fun gt => (gt, [mkSnapshot lambda0 fail0 None])) trio_gt)
    disp0 None.

(** [PedMarker.check_convergence]. *)
Definition check_convergence (param : list snapshot) (lamb_tol : pyfloat)
  : result bool :=
  cur <- last_item param ;;
  if fail cur then Ok true
  else if (1 <? List.length param)%nat then
    prev <- second_last_item param ;;
    dl <- py_sub (lambda cur) (lambda prev) ;;
    let lamb_diff := fabs dl in
    if fgtb lamb_diff lamb_tol then Ok false else Ok true
  else Ok false.

(** [param[-1]['loglik']] of one track. *)
Definition final_loglik (track : geno * list snapshot) : result pyval :=
  s <- last_item (snd track) ;;
  Ok (loglik s).

(** One turn of [for geno in self.param] in [likelihood_ratio]. *)
Definition add_track (maxlik : pyval) (acc : pyfloat * pyfloat)
           (track : geno * list snapshot) : result (pyfloat * pyfloat) :=
  let '(h0_lik, h1_lik) := acc in
  ll <- final_loglik track ;;
  if is_null (fst track) then
    d <- py_sub ll maxlik ;;
    Ok (fadd h0_lik (fdiv_lit (fexp d) 9), h1_lik)
  else
    d <- py_sub ll maxlik ;;
    Ok (h0_lik, fadd h1_lik (fdiv_lit (fexp d) 27)).

(** [PedMarker.likelihood_ratio]. *)
Definition likelihood_ratio (m : PedMarker) : result pyfloat :=
  logliks <- comprehension final_loglik (param m) ;;
  maxlik <- max_by py_gt (fun v => v) logliks ;;
  liks <- for_each (add_track maxlik) (param m) (Fin 0, Fin 0) ;;
  let '(h0_lik, h1_lik) := liks in
  l0 <- flog h0_lik ;;
  l1 <- flog h1_lik ;;
  Ok (fscale (-2) (fsub l0 l1)).

Section Solver.

(** The single-step solver [em.ped_update(param, calls, disp, parental_gt)]. *)
Variable ped_update :
  snapshot -> list CallData -> option R -> geno -> result snapshot.

(** [PedMarker.update_param]. *)
Definition update_param (m : PedMarker) (param : list snapshot)
           (parental_gt : geno) : result snapshot :=
  cur <- last_item param ;;
  let param_new :=
    match ped_update cur (calls m) (disp m) parental_gt with
    | Ok p => p
    | Raise _ => set_failed cur
    end in
  if py_eq (loglik param_new) (Some NInf) then Ok (set_failed param_new)
  else Ok param_new.

End Solver.






End Trio.

(* ================================================================== *)
(** * Concrete inputs used in the scenarios below *)
(* ================================================================== *)

Module Scenario.

Import Pileup.

(** A read showing [A] at the locus with quality character [5] (byte 53). *)
Definition read_A_q53 : PileupRead := mkRead "A" "5" 0 60.

(** A read showing [G] at the locus, whose mapping quality of 0 keeps it
    out of the pileup. *)
Definition read_G_unmapped : PileupRead := mkRead "G" "5" 0 0.

(** The three sums after [read_A_q53] alone, for [ref = A] and [alt = C]. *)
Definition lik_A_q53 : lik3 :=
  (log10 0.99, log10 ((1 - 0.01 * (1 + 0.349)) / 2), log10 (0.01 * 0.349)).

(** Two PED files over the same two parent pairs, first met in the same
    order; the third child belongs to the first pair in [ped_A] and to the
    second pair in [ped_B]. *)
Definition ped_samples : list string := ["kid1"; "kid2"; "kid3"]%string.

Definition ped_A : list (list string) :=
  [ ["fam1"; "kid1"; "dad1"; "mum1"; "1"; "0"];
    ["fam2"; "kid2"; "dad2"; "mum2"; "2"; "0"];
    ["fam1"; "kid3"; "dad1"; "mum1"; "2"; "0"] ]%string.

Definition ped_B : list (list string) :=
  [ ["fam1"; "kid1"; "dad1"; "mum1"; "1"; "0"];
    ["fam2"; "kid2"; "dad2"; "mum2"; "2"; "0"];
    ["fam2"; "kid3"; "dad2"; "mum2"; "2"; "0"] ]%string.

Definition pair1 : Ped.parents := ("dad1", "mum1")%string.
Definition pair2 : Ped.parents := ("dad2", "mum2")%string.

Definition offspring_A : Ped.offspring_dict :=
  [ (pair1, ["kid1"; "kid3"]); (pair2, ["kid2"]) ]%string.

Definition offspring_B : Ped.offspring_dict :=
  [ (pair1, ["kid1"]); (pair2, ["kid2"; "kid3"]) ]%string.

(** Three samples: one with genotype likelihoods, one without, one
    without any read. *)
Definition call_with_PL : Call.CallData :=
  Call.mkCall "s1" 5 (Some [0; 30; 255]%Z) false false false.

Definition call_without_PL : Call.CallData :=
  Call.mkCall "s2" 3 None false false false.

Definition call_no_reads : Call.CallData :=
  Call.mkCall "s3" 0 None false false false.

(** The first snapshot of a track of a marker without reads. *)
Definition seed_failed : Unrelated.snapshot :=
  Unrelated.mkSnapshot [Fin (1 - 0.01); Fin 0; Fin 0.01]
                       None None true None None None.

(** The first snapshot of a track of a marker with reads. *)
Definition seed_live : Unrelated.snapshot :=
  Unrelated.mkSnapshot [Fin (1 - 0.01); Fin 0; Fin 0.01]
                       (Some (Fin 4)) (Some (Fin 0.5)) false None None None.

(** A snapshot as a solver may return it. *)
Definition fitted (ll : R) : Unrelated.snapshot :=
  Unrelated.mkSnapshot [Fin 0.9; Fin 0.05; Fin 0.05]
                       (Some (Fin 4)) (Some (Fin 0.1)) false (Some (Fin ll))
                       None None.

Definition marker_live : Unrelated.Marker :=
  Unrelated.mkMarker [call_without_PL; call_no_reads]
                     [seed_live] [seed_live] (Some 2.5) None.

Definition marker_fitted : Unrelated.Marker :=
  Unrelated.mkMarker [call_without_PL; call_no_reads]
                     [seed_live; fitted (-12)] [seed_live; fitted (-15)]
                     (Some 2.5) None.

(** A solver that always raises. *)
Definition solver_raises (s : Unrelated.snapshot) (cs : list Call.CallData)
           (d : option R) : result Unrelated.snapshot :=
  Raise SolverError.

(** Trio solvers: one whose log-likelihood is [-inf], one that raises. *)
Definition ped_solver_neg_inf (s : Trio.snapshot) (cs : list Call.CallData)
           (d : option R) (gt : Trio.geno) : result Trio.snapshot :=
  Ok (Trio.mkSnapshot (Trio.lambda s) false (Some NInf)).

Definition ped_solver_raises (s : Trio.snapshot) (cs : list Call.CallData)
           (d : option R) (gt : Trio.geno) : result Trio.snapshot :=
  Raise SolverError.

Definition ped_seed : Trio.snapshot :=
  Trio.mkSnapshot (Some (Fin 4)) false None.


Definition dropout_parents : Trio.geno :=
  Trio.mkGeno (1, 0, 1)%Z (2, 0, 0)%Z.

(** A trio marker all of whose tracks end with the log-likelihood [ll]. *)
Definition uniform_tracks (ll : R) : Trio.tracks :=
  map (fun gt => (gt, [ped_seed; Trio.mkSnapshot (Some (Fin 4)) false (Some (Fin ll))]))
      Trio.trio_gt.


Definition ped_marker_uniform (ll : R) : Trio.PedMarker :=
  Trio.mkPedMarker [call_without_PL; call_no_reads] (uniform_tracks ll)
                   (Some 2.5) None.



End Scenario.

(* ================================================================== *)
(** * The turns of the pileup loop *)
(* ================================================================== *)

Module Steps.

Import Pileup.

(** The three ways a turn of the loop succeeds. *)
Inductive step_kind (ref alt : string) (offset : Z) (lik : lik3)
          (read : PileupRead) (lik' : lik3) : Prop :=
| step_ref (base q : ascii) (pr_ref : option R) (p : R)
    (Hbase : str_item (seq read) (qpos read) = Ok base)
    (Hqual : str_item (qual read) (qpos read) = Ok q)
    (Href : confusion ref alt = Ok pr_ref)
    (Halt : confusion alt ref = Ok (Some p))
    (Heq : char_eq_str base ref = true)
    (H1 : 0 < 1 - error_rate q offset)
    (H2 : 0 < (1 - error_rate q offset * (1 + p)) / 2)
    (H3 : 0 < error_rate q offset * p)
    (Hlik : lik' =
            (fst (fst lik) + log10 (1 - error_rate q offset),
             snd (fst lik) + log10 ((1 - error_rate q offset * (1 + p)) / 2),
             snd lik + log10 (error_rate q offset * p)))
| step_alt (base q : ascii) (p : R) (pr_alt : option R)
    (Hbase : str_item (seq read) (qpos read) = Ok base)
    (Hqual : str_item (qual read) (qpos read) = Ok q)
    (Href : confusion ref alt = Ok (Some p))
    (Halt : confusion alt ref = Ok pr_alt)
    (Hne : char_eq_str base ref = false)
    (Heq : char_eq_str base alt = true)
    (H1 : 0 < 1 - error_rate q offset)
    (H2 : 0 < (1 - error_rate q offset * (1 + p)) / 2)
    (H3 : 0 < error_rate q offset * p)
    (Hlik : lik' =
            (fst (fst lik) + log10 (error_rate q offset * p),
             snd (fst lik) + log10 ((1 - error_rate q offset * (1 + p)) / 2),
             snd lik + log10 (1 - error_rate q offset)))
| step_skip (base q : ascii) (pr_ref pr_alt : option R)
    (Hbase : str_item (seq read) (qpos read) = Ok base)
    (Hqual : str_item (qual read) (qpos read) = Ok q)
    (Href : confusion ref alt = Ok pr_ref)
    (Halt : confusion alt ref = Ok pr_alt)
    (Hne : char_eq_str base ref = false)
    (Hne' : char_eq_str base alt = false)
    (Hlik : lik' = lik).

(** [(homref_lik, het_lik, homnonref_lik)] read for the alleles swapped. *)
Definition swap3 (lik : lik3) : lik3 :=
  let '(a, b, c) := lik in (c, b, a).

End Steps.

(* ================================================================== *)
(** * Normalization factors: [Reader.parse_norm] *)
(* ================================================================== *)

Module Norm.

Import Call.

(** A key of the [normfactors] dict: [(sample, insert)], where the insert
    is [None] for a row marked [NA]. *)
Definition key : Type := (string * option Z)%type.

Definition key_eqb (a b : key) : bool :=
  String.eqb (fst a) (fst b) &&
  match snd a, snd b with
  | None, None => true
  | Some x, Some y => (x =? y)%Z
  | _, _ => false
  end.

(** The [normfactors] dict. *)
Definition table : Type := list (key * R).

(** [d[k] = v]. *)
Fixpoint setitem (d : table) (k : key) (v : R) : table :=
  match d with
  | [] => [(k, v)]
  | (k', v') :: d' =>
      if key_eqb k' k then (k', v) :: d' else (k', v') :: setitem d' k v
  end.

(** [d[k]]. *)
Fixpoint getitem (d : table) (k : key) : result R :=
  match d with
  | [] => Raise KeyError
  | (k', v) :: d' => if key_eqb k' k then Ok v else getitem d' k
  end.

(** [set(a) == set(b)]. *)
Definition same_set (a b : list string) : bool :=
  forallb (fun x => Ped.mem x b) a && forallb (fun x => Ped.mem x a) b.

(** [for (sample, nf) in zip(samples, nf_row):
       normfactors[(sample, insert)] = nf]. *)
Definition store_row (samples : list string) (insert : option Z)
           (nf_row : list R) (normfactors : table) : table :=
  fold_left (fun d sv => setitem d (fst sv, insert) (snd sv))
            (combine samples nf_row) normfactors.

Section ParseNorm.

(** The built-ins [int(s)] and [float(s)] on a string. *)
Variable int_of_str : string -> result Z.
Variable float_of_str : string -> result R.

(** The insert of a row: [None] for [NA], else [int(fields[0])]. *)
Definition insert_of (field : string) : result (option Z) :=
  if String.eqb field "NA" then Ok None
  else z <- int_of_str field ;; Ok (Some z).

(** The body of [for line in norm], on a line already split on white
    space. *)
Definition read_row (samples : list string) (normfactors : table)
           (fields : list string) : result table :=
  match fields with
  | [] => Raise IndexError
  | field :: rest =>
      insert <- insert_of field ;;
      nf_row <- comprehension float_of_str rest ;;
      Ok (store_row samples insert nf_row normfactors)
  end.

(** [Reader.parse_norm], on the split header line and the split rows. *)
Definition parse_norm (self_samples : list string) (header : list string)
           (rows : list (list string)) : result (option table) :=
  let samples := tl header in
  normfactors <- for_each (read_row samples) rows [] ;;
  if same_set samples self_samples then Ok (Some normfactors) else Ok None.

End ParseNorm.

(** [try: self.normfactors = self.parse_norm(norm)
    except: self.normfactors = None] in [Reader.__init__]. *)
Definition reader_normfactors (parsed : result (option table)) : option table :=
  match parsed with
  | Ok t => t
  | Raise _ => None
  end.

(** [try: call.NF = self.normfactors[(sample, int(call.INS))]
    except: call.NF = 1.0] in [Reader.next]; [INS] is [None], an int read
    from the VCF or the float median of the pileup. *)
Definition lookup_NF (normfactors : option table) (name : string)
           (INS : option pynum) : R :=
  match (z <- match INS with
              | Some v => Ok (py_int v)
              | None => Raise TypeError
              end ;;
         d <- match normfactors with
              | Some d => Ok d
              | None => Raise TypeError
              end ;;
         getitem d (name, Some z)) with
  | Ok nf => nf
  | Raise _ => 1.0
  end.

End Norm.

(* ================================================================== *)
(** * From calls to a marker: [Reader.next] *)
(* ================================================================== *)

Module Next.

Import Call.

(** [call.PL = None]. *)
Definition clear_PL (c : CallData) : CallData :=
  mkCall (sample c) (DP c) None (is_father c) (is_mother c) (is_child c).

(** The [if/elif/elif] that flags one call of a family. *)
Definition set_role (family : Ped.Family) (c : CallData) : CallData :=
  if String.eqb (sample c) (Ped.father family) then
    mkCall (sample c) (DP c) (PL c) true (is_mother c) (is_child c)
  else if String.eqb (sample c) (Ped.mother family) then
    mkCall (sample c) (DP c) (PL c) (is_father c) true (is_child c)
  else if Ped.mem (sample c) (Ped.children family) then
    mkCall (sample c) (DP c) (PL c) (is_father c) (is_mother c) true
  else c.

(** The two passes over [calls]: depth-only mode, then family flags. *)
Definition prepare_calls (dpmode : bool) (family : option Ped.Family)
           (cs : list CallData) : list CallData :=
  let cs := if dpmode then map clear_PL cs else cs in
  match family with
  | Some fam => map (set_role fam) cs
  | None => cs
  end.

Inductive marker : Type :=
| UnrelatedMarker (m : Unrelated.Marker)
| TrioMarker (m : Trio.PedMarker).

(** The end of [Reader.next]: a [Marker] without a family, a [PedMarker]
    with one. *)
Definition make_marker (info : Unrelated.AF_info) (dpmode : bool)
           (family : option Ped.Family) (cs : list CallData)
           (slope intercept : R) : result marker :=
  let cs := prepare_calls dpmode family cs in
  match family with
  | None =>
      m <- Unrelated.Marker_init info cs slope intercept ;;
      Ok (UnrelatedMarker m)
  | Some _ => Ok (TrioMarker (Trio.PedMarker_init cs slope intercept))
  end.

End Next.

(* ================================================================== *)
(** * Reading the PED file, line by line *)
(* ================================================================== *)

Module PedFile.

Import Ped.

(** The individual a line contributes to the pair [k]: the line names [k]
    as its parents and the individual is a sample. *)
Definition line_child (samples : list string) (k : parents)
           (fields : list string) : list string :=
  match fields with
  | [fam_id; indiv_id; fa; mo; sex; pheno] =>
      if mem indiv_id samples && parents_eqb (fa, mo) k then [indiv_id]
      else []
  | _ => []
  end.

(** The sampled children the file lists for the pair [k], in file order. *)
Definition children_in_file (samples : list string) (k : parents)
           (ped : list (list string)) : list string :=
  flat_map (line_child samples k) ped.

(** The entry of a pair in the dict, [[]] when the pair is not a key. *)
Definition entry (offspring : offspring_dict) (k : parents) : list string :=
  match lookup offspring k with
  | Ok cs => cs
  | Raise _ => []
  end.

End PedFile.

(* ================================================================== *)
(** * Genotype strings: [GT_FORMATTED] *)
(* ================================================================== *)

Module Format.

Definition genotype_eqb (a b : Trio.genotype) : bool :=
  let '(a0, a1, a2) := a in
  let '(b0, b1, b2) := b in
  ((a0 =? b0) && (a1 =? b1) && (a2 =? b2))%Z.

Definition GT_FORMATTED : list (Trio.genotype * string) :=
  [ ((2, 0, 0)%Z, "0/0"); ((1, 0, 1)%Z, "0/."); ((1, 1, 0)%Z, "0/1");
    ((0, 2, 0)%Z, "1/1"); ((0, 1, 1)%Z, "1/."); ((0, 0, 2)%Z, "./.") ]%string.

(** [GT_FORMATTED[gt]]. *)
Definition formatted (gt : Trio.genotype) : result string :=
  match find (fun kv => genotype_eqb (fst kv) gt) GT_FORMATTED with
  | Some kv => Ok (snd kv)
  | None => Raise KeyError
  end.

End Format.

(* ================================================================== *)
(** * More concrete inputs *)
(* ================================================================== *)

Module Inputs.

Import Pileup Call.

(** A read showing [A] at the locus with quality character [!] (byte 33,
    Phred 0). *)
Definition read_A_q0 : PileupRead := mkRead "A" "!" 0 60.

(** A PED file with a blank line after its first line. *)
Definition ped_blank_line : list (list string) :=
  [ ["fam1"; "kid1"; "dad1"; "mum1"; "1"; "0"]; [] ]%string.

(** Snapshots whose estimates are all [nan]. *)
Definition nan_snapshot : Unrelated.snapshot :=
  Unrelated.mkSnapshot [NaN; NaN; NaN] (Some NaN) (Some NaN) false (Some NaN)
                       None None.

Definition ped_nan_snapshot : Trio.snapshot :=
  Trio.mkSnapshot (Some NaN) false (Some NaN).

(** A trio marker whose dropout-free tracks all ended at [-inf] (and were
    stopped), the other tracks at [-3]. *)
Definition null_excluded_finals : list (Trio.geno * pyfloat) :=
  map (fun gt => (gt, if Trio.is_null gt then NInf else Fin (-3)))
      Trio.trio_gt.

Definition null_excluded_marker : Trio.PedMarker :=
  Trio.mkPedMarker [Scenario.call_without_PL]
    (map (fun f => (fst f, [Scenario.ped_seed;
                            Trio.mkSnapshot (Some (Fin 4))
                                            (Trio.is_null (fst f))
                                            (Some (snd f))]))
         null_excluded_finals)
    (Some 2.5) None.

(** A family and a sample that is its father. *)
Definition trio_family : Ped.Family :=
  Ped.mkFamily "dad1" "mum1" ["kid1"; "kid3"]%string.

Definition call_dad : CallData :=
  CallData_init "dad1" (Some (Some 7%Z)) (Some (Some [PyInt 0; PyInt 21; PyInt 255])).

(** A normalization-factor file: a header, a row for insert 300 and a row
    marked [NA]; and stand-ins for [int] and [float] that read the
    numbers this file holds. *)
Definition norm_header : list string := ["insert"; "s1"; "s2"]%string.

Definition norm_rows : list (list string) :=
  [ ["300"; "1.5"; "0.8"]; ["NA"; "1.5"; "0.8"] ]%string.

Definition norm_rows_NA : list (list string) :=
  [ ["NA"; "1.5"; "0.8"] ]%string.

Definition read_int (s : string) : result Z :=
  if String.eqb s "300" then Ok 300%Z else Raise ValueError.

Definition read_float (s : string) : result R :=
  if String.eqb s "1.5" then Ok 1.5
  else if String.eqb s "0.8" then Ok 0.8
  else Raise ValueError.

End Inputs.

(* ================================================================== *)
(** * Facts about the Python layer *)
(* ================================================================== *)

Lemma Rltb_true (x y : R) : x < y -> Rltb x y = true.
Proof. intro H. unfold Rltb. destruct (Rlt_dec x y); [reflexivity | contradiction]. Qed.

Lemma Rltb_false (x y : R) : y <= x -> Rltb x y = false.
Proof. intro H. unfold Rltb. destruct (Rlt_dec x y); [lra | reflexivity]. Qed.

Lemma math_log_pos (x : R) : 0 < x -> math_log x 10 = Ok (log10 x).
Proof. intro H. unfold math_log. rewrite (Rltb_true _ _ H). reflexivity. Qed.

Lemma ln_10_pos : 0 < ln 10.
Proof. rewrite <- ln_1. apply ln_increasing; lra. Qed.

Lemma log10_neg (x : R) : 0 < x < 1 -> log10 x < 0.
Proof.
  intros [H0 H1]. unfold log10.
  assert (Hx : ln x < 0) by (rewrite <- ln_1; apply ln_increasing; lra).
  pose proof ln_10_pos as H10.
  apply Rmult_lt_reg_r with (r := ln 10); [assumption |].
  unfold Rdiv. rewrite Rmult_assoc, Rinv_l by lra. lra.
Qed.

Lemma log10_inj (x y : R) : 0 < x -> 0 < y -> log10 x = log10 y -> x = y.
Proof.
  intros Hx Hy H. apply ln_inv; try assumption.
  pose proof ln_10_pos as H10. unfold log10, Rdiv in H.
  apply Rmult_eq_reg_r with (r := / ln 10); [assumption |].
  apply Rinv_neq_0_compat. lra.
Qed.


Lemma In_firstn {A : Type} (n : nat) (xs : list A) (x : A) :
  In x (firstn n xs) -> In x xs.
Proof.
  revert xs. induction n as [| n IH]; intros [| y ys] H; cbn in *;
    try contradiction.
  destruct H as [-> | H]; [left; reflexivity | right; apply IH, H].
Qed.

Lemma last_item_single {A : Type} (x : A) : last_item [x] = Ok x.
Proof. reflexivity. Qed.

(* ================================================================== *)
(** * The pileup model *)
(* ================================================================== *)

Section PileupFacts.

Import Pileup.

(** Quality byte 53 with offset 33 is an error rate of one in a hundred. *)
Lemma error_rate_53 : error_rate "5" 33 = 0.01.
Proof.
  unfold error_rate, ord.
  replace (- IZR (Z.of_nat (nat_of_ascii "5") - 33) / 10) with (- INR 2)
    by (simpl; lra).
  rewrite Rpower_Ropp, Rpower_pow by lra. simpl. lra.
Qed.

Lemma error_rate_pos (q : ascii) (offset : Z) : 0 < error_rate q offset.
Proof. unfold error_rate, Rpower. apply exp_pos. Qed.

(** A read whose base is the reference allele adds [log10(1 - e)] to
    hom-ref, [log10((1 - e * (1 + pr_alt)) / 2)] to het and
    [log10(e * pr_alt)] to hom-alt, where [pr_alt] is
    [CONFUSION_MATRIX[alt][ref]]. *)
Lemma accumulate_ref_base (ref alt : string) (offset : Z) (lik : lik3)
      (read : PileupRead) (base q : ascii) (pr_ref : option R) (pr_alt : R) :
  str_item (seq read) (qpos read) = Ok base ->
  str_item (qual read) (qpos read) = Ok q ->
  confusion ref alt = Ok pr_ref ->
  confusion alt ref = Ok (Some pr_alt) ->
  char_eq_str base ref = true ->
  error_rate q offset < 1 ->
  0 < pr_alt ->
  error_rate q offset * (1 + pr_alt) < 1 ->
  accumulate ref alt offset lik read =
  let e := error_rate q offset in
  Ok (fst (fst lik) + log10 (1 - e),
      snd (fst lik) + log10 ((1 - e * (1 + pr_alt)) / 2),
      snd lik + log10 (e * pr_alt)).
Proof.
  intros Hb Hq Hr Ha Heq H1 Hp H2.
  destruct lik as [[a b] c]. unfold accumulate.
  rewrite Hb, Hr, Ha, Hq. cbn [bind]. rewrite Heq.
  pose proof (error_rate_pos q offset) as He.
  rewrite math_log_pos by lra. cbn [bind number].
  rewrite math_log_pos by lra. cbn [bind].
  rewrite math_log_pos by (apply Rmult_lt_0_compat; assumption).
  reflexivity.
Qed.

(** A read whose base is neither allele leaves the sums as they are, or
    raises. *)
Lemma accumulate_uninformative (ref alt : string) (offset : Z) (lik : lik3)
      (read : PileupRead) :
  informative ref alt read = false ->
  accumulate ref alt offset lik read = Ok lik \/
  exists e, accumulate ref alt offset lik read = Raise e.
Proof.
  intro H. destruct lik as [[a b] c]. unfold accumulate, informative in *.
  destruct (str_item (seq read) (qpos read)) as [base | e]; cbn [bind];
    [| right; eexists; reflexivity].
  apply orb_false_elim in H. destruct H as [Hr Ha].
  destruct (confusion ref alt) as [pr | e]; cbn [bind];
    [| right; eexists; reflexivity].
  destruct (confusion alt ref) as [pa | e]; cbn [bind];
    [| right; eexists; reflexivity].
  destruct (str_item (qual read) (qpos read)) as [q | e]; cbn [bind];
    [| right; eexists; reflexivity].
  rewrite Hr, Ha. left. reflexivity.
Qed.

Lemma likelihoods_uninformative (ref alt : string) (offset : Z)
      (reads : list PileupRead) (lik : lik3) :
  Forall (fun r => informative ref alt r = false) reads ->
  for_each (accumulate ref alt offset) reads lik = Ok lik \/
  exists e, for_each (accumulate ref alt offset) reads lik = Raise e.
Proof.
  induction 1 as [| r rs Hr _ IH]; [left; reflexivity |].
  cbn [for_each].
  destruct (accumulate_uninformative ref alt offset lik r Hr) as [E | [e E]];
    rewrite E; cbn [bind]; [exact IH | right; eauto].
Qed.

(** With no informative read the computation yields no triple. *)
Lemma PL_absent_uninformative (ref alt : string) (maxcovg : nat) (offset : Z)
      (column : option (list PileupRead)) :
  (forall pileups, column = Some pileups ->
     Forall (fun r => informative ref alt r = false) pileups) ->
  data_PL (PileupData_init column ref alt maxcovg offset) = None.
Proof.
  intro H. unfold PileupData_init. cbn [data_PL].
  set (reads := match column with Some _ => _ | None => [] end).
  assert (Hreads : Forall (fun r => informative ref alt r = false) reads).
  { subst reads. destruct column as [pileups |]; [| constructor].
    specialize (H pileups eq_refl). rewrite Forall_forall in *.
    intros r Hin. apply H.
    apply In_firstn in Hin. apply filter_In in Hin. tauto. }
  unfold calculate_pl, likelihoods.
  destruct (likelihoods_uninformative ref alt offset reads (0, 0, 0) Hreads)
    as [E | [e E]]; rewrite E; cbn [bind]; [| reflexivity].
  rewrite Rltb_false by (cbn; lra). reflexivity.
Qed.

End PileupFacts.

Section PileupClaims.

Import Pileup Call Scenario.

Lemma sums_after_read_A_q53 :
  likelihoods [read_A_q53] "A" "C" 33 = Ok lik_A_q53.
Proof.
  unfold likelihoods. cbn [for_each].
  rewrite (accumulate_ref_base "A" "C" 33 (0, 0, 0) read_A_q53
             "A"%char "5"%char (Some 0.577) 0.349);
    try reflexivity; rewrite ?error_rate_53; try lra.
  cbn [bind fst snd]. rewrite !Rplus_0_l.
  replace (1 - 0.01) with 0.99 by lra. reflexivity.
Qed.

(** C1 (as the code has it).  One read with base [A] and quality byte 53,
    for [ref = A] and [alt = C], leaves the sums at [log10(0.99)] for
    hom-ref, [log10((1 - 0.01 * (1 + 0.349)) / 2)] for het and
    [log10(0.01 * 0.349)] for hom-alt: the miscall rate in the het and
    hom-alt terms is [CONFUSION_MATRIX['C']['A'] = 0.349]. *)
Theorem single_ref_read_terms :
  likelihoods [read_A_q53] "A" "C" 33 =
  Ok (log10 0.99,
      log10 ((1 - 0.01 * (1 + 0.349)) / 2),
      log10 (0.01 * 0.349)).
Proof. exact sums_after_read_A_q53. Qed.

(** C1 as stated fails: the sums are not those built from the miscall rate
    [0.577]. *)
Lemma single_ref_read_terms_not_0577 :
  likelihoods [read_A_q53] "A" "C" 33 <>
  Ok (log10 0.99,
      log10 ((1 - 0.01 * (1 + 0.577)) / 2),
      log10 (0.01 * 0.577)).
Proof.
  rewrite sums_after_read_A_q53. unfold lik_A_q53. intro H.
  injection H as _ H3.
  apply log10_inj in H3; lra.
Qed.

(** C9 (as the code has it).  A record built from a pileup with depth 0
    has no genotype likelihoods, and a pileup without an informative read
    gives a record without genotype likelihoods. *)
Theorem pileup_record_depth_zero :
  forall (name : string) (column : option (list PileupRead)) (ref alt : string),
    (DP (pileup name column ref alt) = 0%Z ->
     PL (pileup name column ref alt) = None) /\
    ((forall pileups, column = Some pileups ->
        Forall (fun r => informative ref alt r = false) pileups) ->
     PL (pileup name column ref alt) = None).
Proof.
  intros name column ref alt. split.
  - unfold pileup, PileupData_init.
    set (reads := match column with Some _ => _ | None => [] end).
    cbn [data_DP data_PL CallData_init DP PL]. intro H.
    destruct reads as [| r rs]; [| cbn in H; lia].
    unfold calculate_pl, likelihoods. cbn [for_each bind].
    rewrite Rltb_false by (cbn; lra). reflexivity.
  - intro H. unfold pileup.
    rewrite (PL_absent_uninformative ref alt 250 33 column H). reflexivity.
Qed.

Lemma pileup_record_depth_zero_witness :
  DP (pileup "s" (Some [read_G_unmapped]) "A" "C") = 0%Z /\
  PL (pileup "s" (Some [read_G_unmapped]) "A" "C") = None /\
  PL (pileup "s" (Some [read_G_unmapped]) "A" "C") = None.
Proof.
  split; [reflexivity | split].
  - apply (proj1 (pileup_record_depth_zero
                    "s" (Some [read_G_unmapped]) "A" "C")).
    reflexivity.
  - apply (proj2 (pileup_record_depth_zero
                    "s" (Some [read_G_unmapped]) "A" "C")).
    intros pileups E. injection E as <-.
    constructor; [reflexivity | constructor].
Defined.

(** C9 as stated fails: a record built from VCF fields keeps the triple it
    is given, also at depth 0. *)
Lemma vcf_record_depth_zero_with_PL :
  DP (CallData_init "s" (Some (Some 0%Z))
        (Some (Some [PyInt 0; PyInt 30; PyInt 255]))) = 0%Z /\
  PL (CallData_init "s" (Some (Some 0%Z))
        (Some (Some [PyInt 0; PyInt 30; PyInt 255])))
  = Some [0; 30; 255]%Z.
Proof. split; reflexivity. Qed.

Lemma max3_upper (lik : lik3) :
  Forall (fun l => l <= max3 lik) (entries lik).
Proof.
  destruct lik as [[a b] c]. unfold max3, entries.
  pose proof (Rmax_l (Rmax a b) c). pose proof (Rmax_r (Rmax a b) c).
  pose proof (Rmax_l a b). pose proof (Rmax_r a b).
  constructor; [lra | constructor; [lra | constructor; [lra | constructor]]].
Qed.

Lemma max3_attained (lik : lik3) : In (max3 lik) (entries lik).
Proof.
  destruct lik as [[a b] c]. unfold max3, entries.
  apply Rmax_case_strong; intros _; [apply Rmax_case_strong; intros _ |];
    cbn; auto.
Qed.

(** C10.  A triple returned by [calculate_pl] is the accumulated sums
    minus their maximum, times [-10]: no entry is negative, the entry of a
    sum that equals the maximum is 0, and such an entry exists. *)
Theorem calculate_pl_normalized :
  forall (reads : list PileupRead) (ref alt : string) (offset : Z)
         (pl : list R),
    calculate_pl reads ref alt offset = Ok (Some pl) ->
    exists lik,
      likelihoods reads ref alt offset = Ok lik /\
      pl = map (fun l => -10 * (l - max3 lik)) (entries lik) /\
      Forall (fun p => 0 <= p) pl /\
      (forall i l, nth_error (entries lik) i = Some l -> l = max3 lik ->
                   nth_error pl i = Some 0) /\
      In 0 pl.
Proof.
  intros reads ref alt offset pl H. unfold calculate_pl in H.
  destruct (likelihoods reads ref alt offset) as [lik | e]; [| discriminate].
  cbn [bind] in H. destruct (Rltb (sum3 lik) 0); [| discriminate].
  injection H as <-. exists lik.
  assert (E : normalize lik = map (fun l => -10 * (l - max3 lik)) (entries lik))
    by (destruct lik as [[a b] c]; reflexivity).
  rewrite E. split; [reflexivity | split; [reflexivity |]].
  split; [| split].
  - apply Forall_map. eapply Forall_impl; [| apply max3_upper].
    cbn. intros l Hl. lra.
  - intros i l Hi ->. rewrite nth_error_map, Hi. cbn. f_equal. lra.
  - apply in_map_iff. exists (max3 lik). split; [lra | apply max3_attained].
Qed.

Lemma calculate_pl_read_A_q53 :
  calculate_pl [read_A_q53] "A" "C" 33 = Ok (Some (normalize lik_A_q53)).
Proof.
  unfold calculate_pl. rewrite sums_after_read_A_q53. cbn [bind].
  rewrite Rltb_true; [reflexivity |].
  unfold lik_A_q53, sum3.
  pose proof (log10_neg 0.99). pose proof (log10_neg ((1 - 0.01 * (1 + 0.349)) / 2)).
  pose proof (log10_neg (0.01 * 0.349)). lra.
Qed.

Lemma calculate_pl_normalized_witness :
  exists lik,
    likelihoods [read_A_q53] "A" "C" 33 = Ok lik /\
    normalize lik_A_q53 = map (fun l => -10 * (l - max3 lik)) (entries lik) /\
    Forall (fun p => 0 <= p) (normalize lik_A_q53) /\
    (forall i l, nth_error (entries lik) i = Some l -> l = max3 lik ->
                 nth_error (normalize lik_A_q53) i = Some 0) /\
    In 0 (normalize lik_A_q53).
Proof.
  exact (calculate_pl_normalized [read_A_q53] "A" "C" 33
           (normalize lik_A_q53) calculate_pl_read_A_q53).
Defined.

End PileupClaims.

(* ================================================================== *)
(** * Pedigree selection *)
(* ================================================================== *)

Section PedClaims.

Import Ped Scenario.

Lemma offspring_of_ped_A :
  for_each (read_line ped_samples) ped_A [] = Ok offspring_A.
Proof. reflexivity. Qed.

Lemma offspring_of_ped_B :
  for_each (read_line ped_samples) ped_B [] = Ok offspring_B.
Proof. reflexivity. Qed.

(** The key of [max(offspring, key=lambda x: len(x))] is the length of the
    key tuple, so the first key the dict walks is returned. *)
Lemma max_by_tuple_len (ks : list parents) :
  max_by Z.gtb tuple_len ks =
  match ks with
  | [] => Raise ValueError
  | k :: _ => Ok k
  end.
Proof.
  destruct ks as [| k ks]; [reflexivity |]. unfold max_by. f_equal.
  induction ks as [| k' ks IH]; [reflexivity |]. cbn. exact IH.
Qed.

(** C2 (the code departs from it).  Whatever the order in which the dict
    walks its keys, [parse_ped] returns the same parent pair for [ped_A]
    and for [ped_B], although the pair with the most children is the first
    one in [ped_A] and the second one in [ped_B]; with the keys walked in
    insertion order the pair chosen for [ped_B] has one child where the
    other pair has two, and with the opposite order the same happens for
    [ped_A]. *)
Theorem parse_ped_ignores_family_size :
  forall dict_iter : list parents -> list parents,
    parents_of (parse_ped dict_iter ped_samples ped_A) =
    parents_of (parse_ped dict_iter ped_samples ped_B) /\
    (family_size offspring_A pair1 = 2%nat /\
     family_size offspring_A pair2 = 1%nat) /\
    (family_size offspring_B pair1 = 1%nat /\
     family_size offspring_B pair2 = 2%nat) /\
    parse_ped (fun ks => ks) ped_samples ped_B
    = Ok (mkFamily "dad1" "mum1" ["kid1"%string]) /\
    parse_ped (@rev parents) ped_samples ped_A
    = Ok (mkFamily "dad2" "mum2" ["kid2"%string]).
Proof.
  intro dict_iter. split; [| repeat split; reflexivity].
  unfold parse_ped. rewrite offspring_of_ped_A, offspring_of_ped_B.
  cbn [bind]. rewrite !max_by_tuple_len.
  change (map fst offspring_A) with [pair1; pair2].
  change (map fst offspring_B) with [pair1; pair2].
  destruct (dict_iter [pair1; pair2]) as [| k ks]; [reflexivity |].
  cbn [bind]. unfold offspring_A, offspring_B. cbn [lookup].
  destruct (parents_eqb pair1 k); [reflexivity |].
  destruct (parents_eqb pair2 k); reflexivity.
Qed.

End PedClaims.

(* ================================================================== *)
(** * Unrelated samples *)
(* ================================================================== *)

Section UnrelatedClaims.

Import Call Unrelated Scenario.

Lemma dp_mode_true (cs : list CallData) :
  Forall (fun c => has_PL c = false) cs -> dp_mode cs = true.
Proof.
  intro H. unfold dp_mode. apply negb_true_iff.
  induction H as [| c cs Hc _ IH]; [reflexivity |].
  cbn [existsb]. rewrite Hc, IH. reflexivity.
Qed.

Lemma dp_mode_false (cs : list CallData) :
  Exists (fun c => has_PL c = true) cs -> dp_mode cs = false.
Proof.
  intro H. unfold dp_mode. apply negb_false_iff.
  apply existsb_exists. apply Exists_exists in H. exact H.
Qed.

Lemma capped_af (x : R) : (if Rltb x 0.9999 then x else 0.9999) = Rmin 0.9999 x.
Proof.
  unfold Rltb. destruct (Rlt_dec x 0.9999) as [H | H].
  - rewrite Rmin_right; lra.
  - rewrite Rmin_left; lra.
Qed.

(** Once the seeds are known, the constructor stores them in the first
    snapshot of each track. *)
Lemma Marker_init_seeds (info : AF_info) (cs : list CallData)
      (slope intercept : R) (phi1 phi0 : list pyfloat) :
  seed_phi info cs = Ok (phi1, phi0) ->
  exists m,
    Marker_init info cs slope intercept = Ok m /\
    map phi (param_H1 m) = [phi1] /\
    map phi (param_H0 m) = [phi0].
Proof.
  intro H. unfold Marker_init. rewrite H. cbn [bind].
  destruct (0 <? total_depth cs)%Z; eexists; repeat split; reflexivity.
Qed.

(** C3 (as the code has it).  When no sample has genotype likelihoods the
    seeds are [phi1 = [1-d, 0, d]] and [phi0 = [1, 0, 0]] with [d = 0.01];
    when some sample has them, the seeds are
    [phi1 = [(1-af)(1-d), af(1-d), d]] and [phi0 = [1-af, af, 0]], where
    [af] is the supplied estimate capped at 0.9999, or 0.01 when no
    estimate can be read. *)
Theorem seed_allele_frequencies :
  forall (info : AF_info) (cs : list CallData) (slope intercept : R),
    (Forall (fun c => has_PL c = false) cs ->
     exists m,
       Marker_init info cs slope intercept = Ok m /\
       map phi (param_H1 m) = [[Fin (1 - 0.01); Fin 0; Fin 0.01]] /\
       map phi (param_H0 m) = [[Fin 1; Fin 0; Fin 0]]) /\
    (Exists (fun c => has_PL c = true) cs ->
     forall af : R,
       (exists x rest, info = Some (Some x :: rest) /\ af = Rmin 0.9999 x) \/
       ((info = None \/ info = Some []) /\ af = 0.01) ->
       exists m,
         Marker_init info cs slope intercept = Ok m /\
         map phi (param_H1 m)
         = [[Fin ((1 - af) * (1 - 0.01)); Fin (af * (1 - 0.01)); Fin 0.01]] /\
         map phi (param_H0 m) = [[Fin (1 - af); Fin af; Fin 0]]).
Proof.
  intros info cs slope intercept. split.
  - intro H. apply Marker_init_seeds. unfold seed_phi.
    rewrite (dp_mode_true cs H). reflexivity.
  - intros H af Haf. apply Marker_init_seeds. unfold seed_phi.
    rewrite (dp_mode_false cs H).
    assert (E : seed_af info = Some af).
    { destruct Haf as [(x & rest & -> & ->) | [[-> | ->] ->]];
        cbn [seed_af]; rewrite ?capped_af; reflexivity. }
    rewrite E. reflexivity.
Qed.

Lemma seed_allele_frequencies_witness :
  (exists m,
     Marker_init None [call_without_PL; call_no_reads] 0 2.5 = Ok m /\
     map phi (param_H1 m) = [[Fin (1 - 0.01); Fin 0; Fin 0.01]] /\
     map phi (param_H0 m) = [[Fin 1; Fin 0; Fin 0]]) /\
  (exists m,
     Marker_init (Some [Some 0.25]) [call_with_PL; call_without_PL] 0 2.5
     = Ok m /\
     map phi (param_H1 m)
     = [[Fin ((1 - Rmin 0.9999 0.25) * (1 - 0.01));
         Fin (Rmin 0.9999 0.25 * (1 - 0.01)); Fin 0.01]] /\
     map phi (param_H0 m)
     = [[Fin (1 - Rmin 0.9999 0.25); Fin (Rmin 0.9999 0.25); Fin 0]]).
Proof.
  split.
  - apply (proj1 (seed_allele_frequencies
                    None [call_without_PL; call_no_reads] 0 2.5)).
    repeat constructor.
  - apply (proj2 (seed_allele_frequencies
                    (Some [Some 0.25]) [call_with_PL; call_without_PL] 0 2.5)).
    + apply Exists_cons_hd. reflexivity.
    + left. exists 0.25, []. split; reflexivity.
Defined.

(** C3 as stated fails: with one sample lacking genotype likelihoods and
    another one having them, the seeds are not the depth-only ones. *)
Lemma seed_not_depth_only_when_some_PL :
  has_PL call_without_PL = false /\
  exists m,
    Marker_init None [call_with_PL; call_without_PL] 0 2.5 = Ok m /\
    map phi (param_H1 m) <> [[Fin (1 - 0.01); Fin 0; Fin 0.01]] /\
    map phi (param_H0 m) <> [[Fin 1; Fin 0; Fin 0]].
Proof.
  split; [reflexivity |]. eexists. split; [reflexivity |].
  cbn [map phi param_H1 param_H0]. unfold dfreq.
  split; intro H; injection H; intros; lra.
Qed.

End UnrelatedClaims.

Section ConvergenceClaims.

Import Call Scenario.

(** C4 (as the code has it).  A history of exactly one snapshot that is
    not failed is never converged, whatever the tolerances, for unrelated
    samples and for trios. *)
Theorem single_live_snapshot_not_converged :
  (forall (s : Unrelated.snapshot) (phi_tol lamb_tol delta_tol : pyfloat),
     Unrelated.fail s = false ->
     Unrelated.check_convergence [s] phi_tol lamb_tol delta_tol = Ok false) /\
  (forall (s : Trio.snapshot) (lamb_tol : pyfloat),
     Trio.fail s = false ->
     Trio.check_convergence [s] lamb_tol = Ok false).
Proof.
  split.
  - intros s t1 t2 t3 H. unfold Unrelated.check_convergence.
    rewrite last_item_single. cbn [bind]. rewrite H. reflexivity.
  - intros s tol H. unfold Trio.check_convergence.
    rewrite last_item_single. cbn [bind]. rewrite H. reflexivity.
Qed.

Lemma single_live_snapshot_not_converged_witness :
  Unrelated.check_convergence [seed_live] (Fin 0.001) (Fin 0.1) (Fin 0.005)
  = Ok false /\
  Trio.check_convergence [Trio.mkSnapshot (Some (Fin 4)) false None] (Fin 0.25)
  = Ok false.
Proof.
  split.
  - apply (proj1 single_live_snapshot_not_converged). reflexivity.
  - apply (proj2 single_live_snapshot_not_converged). reflexivity.
Defined.

(** C4 as stated fails: the single snapshot of a marker without reads is
    failed, and the check returns true on it. *)
Lemma single_failed_snapshot_converged :
  (exists m,
     Unrelated.Marker_init None [call_no_reads] 0 2.5 = Ok m /\
     List.length (Unrelated.param_H1 m) = 1%nat /\
     Unrelated.check_convergence (Unrelated.param_H1 m)
       (Fin 0.001) (Fin 0.1) (Fin 0.005) = Ok true) /\
  Forall (fun track =>
            List.length (snd track) = 1%nat /\
            Trio.check_convergence (snd track) (Fin 0.25) = Ok true)
         (Trio.param (Trio.PedMarker_init [call_no_reads] 0 2.5)).
Proof.
  split.
  - eexists. split; [reflexivity |]. split; reflexivity.
  - unfold Trio.PedMarker_init. cbn [Trio.param].
    apply Forall_map. apply Forall_forall. intros gt _.
    split; reflexivity.
Qed.

End ConvergenceClaims.

Section FailureClaims.

Import Call Unrelated Scenario.

Lemma last_item_split {A : Type} (xs : list A) (x : A) :
  last_item xs = Ok x -> xs = removelast xs ++ [x].
Proof.
  unfold last_item. intro H.
  destruct (rev xs) as [| y ys] eqn:E; [discriminate |].
  injection H as ->.
  assert (Hxs : xs = rev ys ++ [x]).
  { rewrite <- (rev_involutive xs), E. reflexivity. }
  rewrite Hxs at 2. rewrite Hxs, removelast_last. reflexivity.
Qed.

(** A failed last snapshot is terminal for the convergence check. *)
Lemma failed_is_terminal (param : list snapshot) (cur : snapshot)
      (phi_tol lamb_tol delta_tol : pyfloat) :
  last_item param = Ok cur -> fail cur = true ->
  check_convergence param phi_tol lamb_tol delta_tol = Ok true.
Proof.
  intros Hl Hf. unfold check_convergence. rewrite Hl. cbn [bind].
  rewrite Hf. reflexivity.
Qed.

(** A check that answers false has seen a last snapshot that is not
    failed. *)
Lemma not_converged_not_failed (param : list snapshot)
      (phi_tol lamb_tol delta_tol : pyfloat) :
  check_convergence param phi_tol lamb_tol delta_tol = Ok false ->
  exists cur, last_item param = Ok cur /\ fail cur = false.
Proof.
  unfold check_convergence. intro H.
  destruct (last_item param) as [cur | e]; [| discriminate].
  cbn [bind] in H. exists cur. split; [reflexivity |].
  destruct (fail cur); [discriminate | reflexivity].
Qed.

Section Driver.

Variable em_update : snapshot -> list CallData -> option R -> result snapshot.
Variable m : Marker.
Variables phi_tol lamb_tol delta_tol : pyfloat.

(** Along a run of the driver, every snapshot but the last is not failed. *)
Lemma run_track_live_prefix (cap : nat) :
  forall param history : list snapshot,
    Forall (fun s => fail s = false) (removelast param) ->
    run_track em_update cap m phi_tol lamb_tol delta_tol param = Ok history ->
    Forall (fun s => fail s = false) (removelast history).
Proof.
  induction cap as [| cap IH]; intros param history Hinv Hrun; cbn in Hrun.
  - injection Hrun as <-. exact Hinv.
  - destruct (check_convergence param phi_tol lamb_tol delta_tol)
      as [[|] | e] eqn:Hc; cbn [bind] in Hrun; try discriminate.
    + injection Hrun as <-. exact Hinv.
    + destruct (update_param em_update m param) as [p | e]; [| discriminate].
      cbn [bind] in Hrun. apply (IH _ _ ) in Hrun; [exact Hrun |].
      rewrite removelast_last.
      destruct (not_converged_not_failed _ _ _ _ Hc) as (cur & Hl & Hf).
      rewrite (last_item_split _ _ Hl). apply Forall_app. split; [exact Hinv |].
      constructor; [exact Hf | constructor].
Qed.

(** A terminal track is returned as it is. *)
Lemma run_track_frozen (cap : nat) (param : list snapshot) (cur : snapshot) :
  last_item param = Ok cur -> fail cur = true ->
  run_track em_update cap m phi_tol lamb_tol delta_tol param = Ok param.
Proof.
  intros Hl Hf. destruct cap as [| cap]; [reflexivity |]. cbn [run_track].
  rewrite (failed_is_terminal _ _ _ _ _ Hl Hf). reflexivity.
Qed.

End Driver.

(** C6.  When the solver raises, [update_param] returns the last snapshot
    with [fail] set and every other field as it was; a track whose last
    snapshot is failed is terminal for the convergence check; the driver
    leaves such a track as it is; and in a history the driver builds from a
    seed, a failed snapshot is the last one, so that nothing after the
    point of failure differs from it or clears the flag. *)
Theorem solver_failure_is_permanent :
  forall (em_update : snapshot -> list CallData -> option R -> result snapshot)
         (m : Marker),
    (forall param cur e,
       last_item param = Ok cur ->
       em_update cur (calls m) (disp m) = Raise e ->
       update_param em_update m param
       = Ok (mkSnapshot (phi cur) (lambda cur) (delta cur) true (loglik cur)
                        (exp_phi cur) (exp_delta cur))) /\
    (forall param cur phi_tol lamb_tol delta_tol,
       last_item param = Ok cur -> fail cur = true ->
       check_convergence param phi_tol lamb_tol delta_tol = Ok true /\
       forall cap,
         run_track em_update cap m phi_tol lamb_tol delta_tol param = Ok param) /\
    (forall cap phi_tol lamb_tol delta_tol seed history pre s post,
       run_track em_update cap m phi_tol lamb_tol delta_tol [seed] = Ok history ->
       history = pre ++ s :: post ->
       fail s = true ->
       post = [] /\
       forall t, In t post -> fail t = true /\ t = s).
Proof.
  intros em_update m. split; [| split].
  - intros param cur e Hl He. unfold update_param. rewrite Hl. cbn [bind].
    rewrite He. reflexivity.
  - intros param cur t1 t2 t3 Hl Hf. split.
    + exact (failed_is_terminal _ _ _ _ _ Hl Hf).
    + intro cap. exact (run_track_frozen em_update m t1 t2 t3 cap _ _ Hl Hf).
  - intros cap t1 t2 t3 seed history pre s post Hrun -> Hf.
    assert (Hpost : post = []).
    { apply run_track_live_prefix in Hrun; [| constructor].
      destruct post as [| t ts]; [reflexivity | exfalso].
      rewrite removelast_app in Hrun by discriminate.
      apply Forall_app in Hrun. destruct Hrun as [_ Hrun].
      change (s :: t :: ts) with ([s] ++ t :: ts) in Hrun.
      rewrite removelast_app in Hrun by discriminate.
      apply Forall_app in Hrun. destruct Hrun as [Hs _].
      inversion Hs as [| ? ? Hs' _]; subst. congruence. }
    split; [exact Hpost |]. subst post. intros t [].
Qed.

Lemma solver_failure_is_permanent_witness :
  update_param solver_raises marker_live [seed_live]
  = Ok (mkSnapshot (phi seed_live) (lambda seed_live) (delta seed_live) true
                   (loglik seed_live) (exp_phi seed_live) (exp_delta seed_live)) /\
  (check_convergence [seed_live; copy_failed seed_live]
     (Fin 0.001) (Fin 0.1) (Fin 0.005) = Ok true /\
   forall cap,
     run_track solver_raises cap marker_live (Fin 0.001) (Fin 0.1) (Fin 0.005)
       [seed_live; copy_failed seed_live]
     = Ok [seed_live; copy_failed seed_live]) /\
  (@nil snapshot = [] /\
   forall t, In t (@nil snapshot) -> fail t = true /\ t = copy_failed seed_live).
Proof.
  pose proof (solver_failure_is_permanent solver_raises marker_live)
    as (Ha & Hb & Hc).
  split; [| split].
  - apply (Ha [seed_live] seed_live SolverError); reflexivity.
  - apply (Hb [seed_live; copy_failed seed_live] (copy_failed seed_live));
      reflexivity.
  - apply (Hc 5%nat (Fin 0.001) (Fin 0.1) (Fin 0.005) seed_live
              [seed_live; copy_failed seed_live]
              [seed_live] (copy_failed seed_live) []); reflexivity.
Defined.

End FailureClaims.

Section RatioClaims.

Import Call Unrelated Scenario.

(** A marker without reads starts both tracks failed, without a
    log-likelihood. *)
Lemma Marker_init_no_reads (info : AF_info) (cs : list CallData)
      (slope intercept : R) (m : Marker) :
  total_depth cs = 0%Z ->
  Marker_init info cs slope intercept = Ok m ->
  exists phi1 phi0,
    param_H1 m = [mkSnapshot phi1 None None true None None None] /\
    param_H0 m = [mkSnapshot phi0 None None true None None None].
Proof.
  intros Hdp H. unfold Marker_init in H.
  destruct (seed_phi info cs) as [[phi1 phi0] | e]; [| discriminate].
  cbn [bind] in H. rewrite Hdp in H. cbn in H. injection H as <-.
  exists phi1, phi0. split; reflexivity.
Qed.

(** C7.  The likelihood ratio is [-2 * (loglik_H0 - loglik_H1)] on the
    last snapshots; it is [None] when either log-likelihood is [None]; and
    a marker without reads starts both tracks failed without a
    log-likelihood, so that its ratio is [None]. *)
Theorem likelihood_ratio_or_absent :
  (forall (m : Marker) (h0 h1 : snapshot),
     last_item (param_H0 m) = Ok h0 ->
     last_item (param_H1 m) = Ok h1 ->
     (forall x y : pyfloat,
        loglik h0 = Some x -> loglik h1 = Some y ->
        likelihood_ratio m = Some (fscale (-2) (fsub x y))) /\
     (forall x y : R,
        loglik h0 = Some (Fin x) -> loglik h1 = Some (Fin y) ->
        likelihood_ratio m = Some (Fin (-2 * (x - y)))) /\
     (loglik h0 = None \/ loglik h1 = None -> likelihood_ratio m = None)) /\
  (forall (info : AF_info) (cs : list CallData) (slope intercept : R)
          (m : Marker),
     total_depth cs = 0%Z ->
     Marker_init info cs slope intercept = Ok m ->
     map fail (param_H1 m) = [true] /\ map loglik (param_H1 m) = [None] /\
     map fail (param_H0 m) = [true] /\ map loglik (param_H0 m) = [None] /\
     likelihood_ratio m = None).
Proof.
  split.
  - intros m h0 h1 H0 H1. unfold likelihood_ratio. rewrite H0, H1.
    cbn [bind]. repeat split.
    + intros x y -> ->. reflexivity.
    + intros x y -> ->. cbn. do 2 apply f_equal. lra.
    + intros [-> | ->]; [reflexivity |]. destruct (loglik h0); reflexivity.
  - intros info cs slope intercept m Hdp Hm.
    destruct (Marker_init_no_reads _ _ _ _ _ Hdp Hm) as (phi1 & phi0 & E1 & E0).
    unfold likelihood_ratio. rewrite E1, E0. repeat split; reflexivity.
Qed.

Lemma likelihood_ratio_or_absent_witness :
  likelihood_ratio marker_fitted = Some (Fin (-2 * (-15 - -12))) /\
  likelihood_ratio marker_live = None /\
  exists m,
    Marker_init None [call_no_reads] 0 2.5 = Ok m /\
    likelihood_ratio m = None.
Proof.
  split; [| split].
  - apply (proj1 (proj2 (proj1 likelihood_ratio_or_absent
                           marker_fitted (fitted (-15)) (fitted (-12))
                           eq_refl eq_refl)));
      reflexivity.
  - apply (proj2 (proj2 (proj1 likelihood_ratio_or_absent
                           marker_live seed_live seed_live
                           eq_refl eq_refl))).
    left. reflexivity.
  - eexists. split; [reflexivity |].
    apply (proj2 likelihood_ratio_or_absent None [call_no_reads] 0 2.5);
      reflexivity.
Defined.

End RatioClaims.

(* ================================================================== *)
(** * Trios *)
(* ================================================================== *)

Section TrioUpdateClaims.

Import Call Trio Scenario.

(** C8.  When the trio solver returns a log-likelihood of [-inf], the
    snapshot [update_param] returns is the solver's with [fail] set; when
    the solver raises, it is the last snapshot with [fail] set. *)
Theorem ped_update_param_failure :
  forall (ped_update :
            snapshot -> list CallData -> option R -> geno -> result snapshot)
         (m : PedMarker) (param : list snapshot) (parental_gt : geno)
         (cur : snapshot),
    last_item param = Ok cur ->
    (forall p,
       ped_update cur (calls m) (disp m) parental_gt = Ok p ->
       loglik p = Some NInf ->
       update_param ped_update m param parental_gt
       = Ok (mkSnapshot (lambda p) true (Some NInf))) /\
    (forall e,
       ped_update cur (calls m) (disp m) parental_gt = Raise e ->
       update_param ped_update m param parental_gt
       = Ok (mkSnapshot (lambda cur) true (loglik cur))).
Proof.
  intros ped_update m param gt cur Hl. unfold update_param. rewrite Hl.
  cbn [bind]. split.
  - intros p Hp Hll. rewrite Hp, Hll. cbn [py_eq feqb].
    unfold set_failed. rewrite Hll. reflexivity.
  - intros e He. rewrite He. cbn [set_failed loglik].
    destruct (py_eq (loglik cur) (Some NInf)); reflexivity.
Qed.

Lemma ped_update_param_failure_witness :
  update_param ped_solver_neg_inf (ped_marker_uniform 0) [ped_seed]
               dropout_parents
  = Ok (mkSnapshot (Some (Fin 4)) true (Some NInf)) /\
  update_param ped_solver_raises (ped_marker_uniform 0) [ped_seed]
               dropout_parents
  = Ok (mkSnapshot (Some (Fin 4)) true None).
Proof.
  split.
  - apply (proj1 (ped_update_param_failure ped_solver_neg_inf
                    (ped_marker_uniform 0) [ped_seed] dropout_parents ped_seed
                    eq_refl)
                 (mkSnapshot (Some (Fin 4)) false (Some NInf)));
      reflexivity.
  - apply (proj2 (ped_update_param_failure ped_solver_raises
                    (ped_marker_uniform 0) [ped_seed] dropout_parents ped_seed
                    eq_refl) SolverError).
    reflexivity.
Defined.

End TrioUpdateClaims.

Section TrioRatioClaims.

Import Call Trio Scenario.




























End TrioRatioClaims.

(* ================================================================== *)
(** * More about the pileup model *)
(* ================================================================== *)

Section PileupMore.

Import Pileup Call Steps.

Lemma math_log_ok (x t : R) : math_log x 10 = Ok t -> 0 < x /\ t = log10 x.
Proof.
  unfold math_log, Rltb. destruct (Rlt_dec 0 x); intro H; [| discriminate].
  injection H as <-. split; [assumption | reflexivity].
Qed.

Lemma math_log_domain (x : R) : x <= 0 -> math_log x 10 = Raise ValueError.
Proof. intro H. unfold math_log. rewrite Rltb_false by exact H. reflexivity. Qed.

Lemma char_eq_str_unique (c : ascii) (s s' : string) :
  char_eq_str c s = true -> char_eq_str c s' = true -> s = s'.
Proof.
  unfold char_eq_str. intros H H'.
  apply String.eqb_eq in H. apply String.eqb_eq in H'. congruence.
Qed.

(** What a successful lookup in [CONFUSION_MATRIX] tells: both bases are
    keys, the diagonal holds [None], and a rate lies strictly between 0
    and 1. *)
Lemma confusion_spec (a b : string) (v : option R) :
  confusion a b = Ok v ->
  In a (map fst CONFUSION_MATRIX) /\ In b (map fst CONFUSION_MATRIX) /\
  (a = b -> v = None) /\
  (forall p, v = Some p -> a <> b /\ 0 < p < 1).
Proof.
  unfold confusion, CONFUSION_MATRIX. cbn [getitem map fst].
  destruct (String.eqb "A" a) eqn:Ea;
    [| destruct (String.eqb "C" a) eqn:Ec;
       [| destruct (String.eqb "G" a) eqn:Eg;
          [| destruct (String.eqb "T" a) eqn:Et; [| discriminate]]]];
    cbn [bind getitem];
    (destruct (String.eqb "A" b) eqn:Fa;
     [| destruct (String.eqb "C" b) eqn:Fc;
        [| destruct (String.eqb "G" b) eqn:Fg;
           [| destruct (String.eqb "T" b) eqn:Ft; [| discriminate]]]]);
    intro H; injection H as <-;
    repeat match goal with
           | E : String.eqb _ _ = true |- _ => apply String.eqb_eq in E
           end;
    subst.
  all: (split; [cbn; auto 6 |]); (split; [cbn; auto 6 |]).
  all: split.
  all: try (intro Hab; try reflexivity; discriminate Hab).
  all: intros p Hp; try discriminate Hp; injection Hp as <-.
  all: split; [discriminate | lra].
Qed.

Lemma accumulate_ok_inv (ref alt : string) (offset : Z) (lik lik' : lik3)
      (read : PileupRead) :
  accumulate ref alt offset lik read = Ok lik' ->
  step_kind ref alt offset lik read lik'.
Proof.
  destruct lik as [[a b] c]. unfold accumulate. intro H.
  destruct (str_item (seq read) (qpos read)) as [base |] eqn:Hb;
    cbn [bind] in H; [| discriminate].
  destruct (confusion ref alt) as [pr |] eqn:Hr; cbn [bind] in H; [| discriminate].
  destruct (confusion alt ref) as [pa |] eqn:Ha; cbn [bind] in H; [| discriminate].
  destruct (str_item (qual read) (qpos read)) as [q |] eqn:Hq;
    cbn [bind] in H; [| discriminate].
  destruct (char_eq_str base ref) eqn:E1;
    [| destruct (char_eq_str base alt) eqn:E2].
  - destruct (math_log (1 - error_rate q offset) 10) as [t1 |] eqn:L1;
      cbn [bind] in H; [| discriminate].
    destruct pa as [p |]; cbn [bind number] in H; [| discriminate].
    destruct (math_log ((1 - error_rate q offset * (1 + p)) / 2) 10)
      as [t2 |] eqn:L2; cbn [bind] in H; [| discriminate].
    destruct (math_log (error_rate q offset * p) 10) as [t3 |] eqn:L3;
      cbn [bind] in H; [| discriminate].
    apply math_log_ok in L1, L2, L3.
    destruct L1 as [? ->], L2 as [? ->], L3 as [? ->]. injection H as <-.
    eapply step_ref; eauto.
  - destruct pr as [p |]; cbn [bind number] in H; [| discriminate].
    destruct (math_log (error_rate q offset * p) 10) as [t1 |] eqn:L1;
      cbn [bind] in H; [| discriminate].
    destruct (math_log ((1 - error_rate q offset * (1 + p)) / 2) 10)
      as [t2 |] eqn:L2; cbn [bind] in H; [| discriminate].
    destruct (math_log (1 - error_rate q offset) 10) as [t3 |] eqn:L3;
      cbn [bind] in H; [| discriminate].
    apply math_log_ok in L1, L2, L3.
    destruct L1 as [? ->], L2 as [? ->], L3 as [? ->]. injection H as <-.
    eapply step_alt; eauto.
  - injection H as <-. eapply step_skip; eauto.
Qed.

End PileupMore.

Section PileupProperties.

Import Pileup Call Steps Scenario.

Lemma for_each_cons_ok {A B : Type} (body : B -> A -> result B)
      (x : A) (xs : list A) (acc r : B) :
  for_each body (x :: xs) acc = Ok r ->
  exists acc', body acc x = Ok acc' /\ for_each body xs acc' = Ok r.
Proof.
  cbn [for_each]. destruct (body acc x) as [acc' | e]; cbn [bind]; intro H;
    [exists acc'; split; [reflexivity | exact H] | discriminate].
Qed.

Lemma for_each_ok_each {A B : Type} (body : B -> A -> result B)
      (xs : list A) (acc r : B) (x : A) :
  for_each body xs acc = Ok r -> In x xs ->
  exists a a', body a x = Ok a'.
Proof.
  revert acc. induction xs as [| y ys IH]; intros acc H Hin; [destruct Hin |].
  apply for_each_cons_ok in H. destruct H as (acc' & Hy & Hrest).
  destruct Hin as [-> | Hin]; [exists acc, acc'; exact Hy | exact (IH _ Hrest Hin)].
Qed.

Lemma for_each_raises {A B : Type} (body : B -> A -> result B)
      (xs : list A) (x : A) :
  In x xs -> (forall a, exists e, body a x = Raise e) ->
  forall acc, exists e, for_each body xs acc = Raise e.
Proof.
  intros Hin Hx. induction xs as [| y ys IH]; intro acc; [destruct Hin |].
  cbn [for_each]. destruct (body acc y) as [acc' | e] eqn:E; cbn [bind];
    [| exists e; reflexivity].
  destruct Hin as [-> | Hin]; [| exact (IH Hin acc')].
  destruct (Hx acc) as [e He]. congruence.
Qed.

Lemma step_informative (ref alt : string) (offset : Z) (lik lik' : lik3)
      (read : PileupRead) :
  step_kind ref alt offset lik read lik' ->
  (informative ref alt read = true /\
   fst (fst lik') < fst (fst lik) /\ snd (fst lik') < snd (fst lik) /\
   snd lik' < snd lik) \/
  (informative ref alt read = false /\ lik' = lik).
Proof.
  intros [base q pr p Hb Hq Hr Ha Heq H1 H2 H3 ->
         | base q p pa Hb Hq Hr Ha Hne Heq H1 H2 H3 ->
         | base q pr pa Hb Hq Hr Ha Hne Hne' ->].
  - left. unfold informative. rewrite Hb, Heq. split; [reflexivity |].
    destruct (proj2 (proj2 (proj2 (confusion_spec _ _ _ Ha))) p eq_refl)
      as [_ Hp].
    pose proof (error_rate_pos q offset) as He. cbn [fst snd].
    pose proof (log10_neg (1 - error_rate q offset)).
    pose proof (log10_neg ((1 - error_rate q offset * (1 + p)) / 2)).
    pose proof (log10_neg (error_rate q offset * p)).
    assert (error_rate q offset * p < 1) by nra.
    assert (0 < error_rate q offset * (1 + p)) by nra.
    repeat split; lra.
  - left. unfold informative. rewrite Hb, Hne, Heq. split; [reflexivity |].
    destruct (proj2 (proj2 (proj2 (confusion_spec _ _ _ Hr))) p eq_refl)
      as [_ Hp].
    pose proof (error_rate_pos q offset) as He. cbn [fst snd].
    pose proof (log10_neg (1 - error_rate q offset)).
    pose proof (log10_neg ((1 - error_rate q offset * (1 + p)) / 2)).
    pose proof (log10_neg (error_rate q offset * p)).
    assert (error_rate q offset * p < 1) by nra.
    assert (0 < error_rate q offset * (1 + p)) by nra.
    repeat split; lra.
  - right. unfold informative. rewrite Hb, Hne, Hne'. split; reflexivity.
Qed.

(** The sums never rise, and fall strictly once an informative read has
    been met. *)
Lemma sums_fall (ref alt : string) (offset : Z) (reads : list PileupRead) :
  forall lik lik',
    for_each (accumulate ref alt offset) reads lik = Ok lik' ->
    (existsb (informative ref alt) reads = true /\
     fst (fst lik') < fst (fst lik) /\ snd (fst lik') < snd (fst lik) /\
     snd lik' < snd lik) \/
    (existsb (informative ref alt) reads = false /\ lik' = lik).
Proof.
  induction reads as [| r rs IH]; intros lik lik' H.
  - right. injection H as <-. split; reflexivity.
  - apply for_each_cons_ok in H. destruct H as (mid & Hr & Hrest).
    apply accumulate_ok_inv, step_informative in Hr.
    specialize (IH _ _ Hrest). cbn [existsb].
    destruct Hr as [(-> & A1 & A2 & A3) | (-> & ->)]; cbn [orb].
    + left. split; [reflexivity |].
      destruct IH as [(_ & B1 & B2 & B3) | (_ & ->)]; repeat split; lra.
    + exact IH.
Qed.

(** X1.  When [calculate_pl] returns, it returns a triple exactly when some
    read shows the reference or the alternate allele at the locus. *)
Theorem PL_present_iff_informative :
  forall (reads : list PileupRead) (ref alt : string) (offset : Z)
         (pl : option (list R)),
    calculate_pl reads ref alt offset = Ok pl ->
    (pl <> None <-> existsb (informative ref alt) reads = true).
Proof.
  intros reads ref alt offset pl H. unfold calculate_pl, likelihoods in H.
  destruct (for_each (accumulate ref alt offset) reads (0, 0, 0))
    as [[[a b] c] | e] eqn:E; cbn [bind] in H; [| discriminate].
  apply sums_fall in E. cbn [fst snd] in E. unfold sum3 in H.
  destruct E as [(-> & Ha & Hb & Hc) | (-> & E)].
  - rewrite Rltb_true in H by lra. injection H as <-.
    split; [reflexivity | discriminate].
  - injection E as -> -> ->. rewrite Rltb_false in H by lra.
    injection H as <-. split; [congruence | discriminate].
Qed.

Lemma PL_present_iff_informative_witness :
  Some (normalize lik_A_q53) <> None <->
  existsb (informative "A" "C") [read_A_q53] = true.
Proof.
  exact (PL_present_iff_informative [read_A_q53] "A" "C" 33
           (Some (normalize lik_A_q53)) calculate_pl_read_A_q53).
Defined.

Lemma calculate_pl_some (reads : list PileupRead) (ref alt : string)
      (offset : Z) (pl : list R) :
  calculate_pl reads ref alt offset = Ok (Some pl) ->
  exists lik,
    likelihoods reads ref alt offset = Ok lik /\
    pl = normalize lik /\
    exists r l l',
      In r reads /\ informative ref alt r = true /\
      accumulate ref alt offset l r = Ok l'.
Proof.
  intro H. unfold calculate_pl in H.
  destruct (likelihoods reads ref alt offset) as [lik | e] eqn:E;
    cbn [bind] in H; [| discriminate].
  exists lik. split; [reflexivity |].
  destruct (Rltb (sum3 lik) 0) eqn:Hs; [| discriminate].
  injection H as <-. split; [reflexivity |].
  unfold likelihoods in E. pose proof (sums_fall _ _ _ _ _ _ E) as Hf.
  destruct Hf as [(Hex & _) | (_ & ->)].
  - apply existsb_exists in Hex. destruct Hex as (r & Hin & Hr).
    destruct (for_each_ok_each _ _ _ _ r E Hin) as (l & l' & Hl).
    exists r, l, l'. repeat split; assumption.
  - unfold sum3 in Hs. rewrite Rltb_false in Hs by lra. discriminate.
Qed.

(** X2.  A pileup gives a triple only for two different alleles that are
    both single letters among [A], [C], [G], [T]: for any other pair of
    alleles (an indel, an [N], equal alleles) the triple is absent. *)
Theorem PL_needs_two_distinct_bases :
  forall (column : option (list PileupRead)) (ref alt : string)
         (maxcovg : nat) (offset : Z) (pl : list R),
    data_PL (PileupData_init column ref alt maxcovg offset) = Some pl ->
    In ref (map fst CONFUSION_MATRIX) /\
    In alt (map fst CONFUSION_MATRIX) /\
    ref <> alt.
Proof.
  intros column ref alt maxcovg offset pl. unfold PileupData_init.
  cbn [data_PL].
  set (reads := match column with Some _ => _ | None => [] end).
  destruct (calculate_pl reads ref alt offset) as [[pl' |] | e] eqn:E;
    intro H; try discriminate.
  apply calculate_pl_some in E.
  destruct E as (lik & _ & _ & r & l & l' & _ & Hinf & Hacc).
  apply accumulate_ok_inv in Hacc.
  destruct Hacc as [base q pr p Hb Hq Hr Ha Heq H1 H2 H3 _
                   | base q p pa Hb Hq Hr Ha Hne Heq H1 H2 H3 _
                   | base q pr pa Hb Hq Hr Ha Hne Hne' _].
  - destruct (confusion_spec _ _ _ Ha) as (Ia & Ir & _ & Hp).
    destruct (Hp p eq_refl) as [Hne _]. repeat split; auto.
  - destruct (confusion_spec _ _ _ Hr) as (Ir & Ia & _ & Hp).
    destruct (Hp p eq_refl) as [Hne' _]. repeat split; auto.
  - unfold informative in Hinf. rewrite Hb, Hne, Hne' in Hinf. discriminate.
Qed.

Lemma data_PL_read_A_q53 :
  data_PL (PileupData_init (Some [read_A_q53]) "A" "C" 250 33)
  = Some (normalize lik_A_q53).
Proof.
  unfold PileupData_init.
  change (firstn 250 (filter (fun r => (0 <? mapq r)%Z) [read_A_q53]))
    with [read_A_q53].
  cbn [data_PL]. rewrite calculate_pl_read_A_q53. reflexivity.
Qed.

Lemma PL_needs_two_distinct_bases_witness :
  In "A"%string (map fst CONFUSION_MATRIX) /\
  In "C"%string (map fst CONFUSION_MATRIX) /\
  "A"%string <> "C"%string.
Proof.
  exact (PL_needs_two_distinct_bases (Some [read_A_q53]) "A" "C" 250 33
           (normalize lik_A_q53) data_PL_read_A_q53).
Defined.

Lemma error_rate_ge_1 (q : ascii) (offset : Z) :
  (ord q <= offset)%Z -> 1 <= error_rate q offset.
Proof.
  intro H. unfold error_rate, Rpower.
  assert (Hx : 0 <= - IZR (ord q - offset) / 10).
  { assert (IZR (ord q - offset) <= 0) by (apply IZR_le; lia). lra. }
  assert (Hy : 0 <= - IZR (ord q - offset) / 10 * ln 10)
    by (apply Rmult_le_pos; [exact Hx | left; exact ln_10_pos]).
  rewrite <- exp_0. destruct Hy as [Hlt | <-].
  - left. apply exp_increasing. exact Hlt.
  - right. reflexivity.
Qed.

Lemma accumulate_low_quality (ref alt : string) (offset : Z)
      (r : PileupRead) (q : ascii) :
  informative ref alt r = true ->
  str_item (qual r) (qpos r) = Ok q ->
  (ord q <= offset)%Z ->
  forall lik, exists e, accumulate ref alt offset lik r = Raise e.
Proof.
  intros Hinf Hq Hord lik.
  pose proof (error_rate_ge_1 q offset Hord) as He.
  destruct (accumulate ref alt offset lik r) as [lik' | e] eqn:E;
    [exfalso | exists e; reflexivity].
  apply accumulate_ok_inv in E.
  destruct E as [base q' pr p Hb Hq' Hr Ha Heq H1 H2 H3 _
                | base q' p pa Hb Hq' Hr Ha Hne Heq H1 H2 H3 _
                | base q' pr pa Hb Hq' Hr Ha Hne Hne' _].
  - rewrite Hq in Hq'. injection Hq' as <-. lra.
  - rewrite Hq in Hq'. injection Hq' as <-. lra.
  - unfold informative in Hinf. rewrite Hb, Hne, Hne' in Hinf. discriminate.
Qed.

(** X3.  One read that shows the reference or the alternate allele with a
    quality byte at or below the offset (Phred 0: an error rate of 1 or
    more) makes [calculate_pl] raise, so that the whole sample has no
    triple, whatever the other reads are, while the read still counts in
    the depth. *)
Theorem low_quality_read_voids_PL :
  forall (pileups : list PileupRead) (ref alt : string) (maxcovg : nat)
         (offset : Z) (r : PileupRead) (q : ascii),
    In r (firstn maxcovg (filter (fun r => (0 <? mapq r)%Z) pileups)) ->
    informative ref alt r = true ->
    str_item (qual r) (qpos r) = Ok q ->
    (ord q <= offset)%Z ->
    (exists e,
       calculate_pl (firstn maxcovg (filter (fun r => (0 <? mapq r)%Z) pileups))
                    ref alt offset = Raise e) /\
    data_PL (PileupData_init (Some pileups) ref alt maxcovg offset) = None /\
    (0 < data_DP (PileupData_init (Some pileups) ref alt maxcovg offset))%Z.
Proof.
  intros pileups ref alt maxcovg offset r q Hin Hinf Hq Hord.
  assert (Hraise : exists e,
             calculate_pl (firstn maxcovg
                             (filter (fun r => (0 <? mapq r)%Z) pileups))
                          ref alt offset = Raise e).
  { unfold calculate_pl, likelihoods.
    destruct (for_each_raises (accumulate ref alt offset) _ r Hin
                (accumulate_low_quality ref alt offset r q Hinf Hq Hord)
                (0, 0, 0)) as [e He].
    exists e. rewrite He. reflexivity. }
  split; [exact Hraise | split].
  - unfold PileupData_init. cbn [data_PL]. destruct Hraise as [e ->].
    reflexivity.
  - unfold PileupData_init. cbn [data_DP].
    destruct (firstn maxcovg (filter (fun r => (0 <? mapq r)%Z) pileups));
      [destruct Hin | cbn [List.length]; lia].
Qed.

Lemma low_quality_read_voids_PL_witness :
  (exists e,
     calculate_pl (firstn 250 (filter (fun r => (0 <? mapq r)%Z)
                                      [read_A_q53; Inputs.read_A_q0]))
                  "A" "C" 33 = Raise e) /\
  data_PL (PileupData_init (Some [read_A_q53; Inputs.read_A_q0])
                           "A" "C" 250 33) = None /\
  (0 < data_DP (PileupData_init (Some [read_A_q53; Inputs.read_A_q0])
                                "A" "C" 250 33))%Z.
Proof.
  apply (low_quality_read_voids_PL [read_A_q53; Inputs.read_A_q0] "A" "C"
           250 33 Inputs.read_A_q0 "!"%char).
  - right. left. reflexivity.
  - reflexivity.
  - reflexivity.
  - vm_compute. discriminate.
Defined.

End PileupProperties.

Section PileupRecords.

Import Pileup Call Steps Scenario.

Lemma Int_part_nonneg (x : R) : 0 <= x -> (0 <= Int_part x)%Z.
Proof.
  intro H. destruct (base_Int_part x) as [_ Hlow].
  assert (Hlt : IZR (-1) < IZR (Int_part x)) by (simpl; lra).
  apply lt_IZR in Hlt. lia.
Qed.

Lemma py_int_nonneg (x : R) : 0 <= x -> (0 <= py_int (PyFloat x))%Z.
Proof.
  intro H. unfold py_int. rewrite Rltb_false by exact H.
  apply Int_part_nonneg, H.
Qed.

Lemma py_int_zero : py_int (PyFloat 0) = 0%Z.
Proof.
  unfold py_int. rewrite Rltb_false by lra.
  destruct (base_Int_part 0) as [Hup Hlow].
  assert (H1 : IZR (-1) < IZR (Int_part 0)) by (simpl; lra).
  assert (H2 : IZR (Int_part 0) <= IZR 0) by lra.
  apply lt_IZR in H1. apply le_IZR in H2. lia.
Qed.

(** X4.  The depth of a record built from a pileup lies between 0 and the
    cap of 250 reads; its genotype likelihoods, when present, are three
    integers, none negative, one of them 0. *)
Theorem pileup_record_shape :
  forall (name : string) (column : option (list PileupRead))
         (ref alt : string),
    (0 <= DP (pileup name column ref alt) <= 250)%Z /\
    (forall pl,
       PL (pileup name column ref alt) = Some pl ->
       List.length pl = 3%nat /\ Forall (fun p => (0 <= p)%Z) pl /\ In 0%Z pl).
Proof.
  intros name column ref alt. split.
  - unfold pileup, PileupData_init. cbn [CallData_init DP data_DP].
    destruct column as [pileups |]; [| cbn; lia].
    pose proof (firstn_le_length 250
                  (filter (fun r => (0 <? mapq r)%Z) pileups)).
    lia.
  - intros pl. unfold pileup.
    destruct (data_PL (PileupData_init column ref alt 250 33))
      as [fl |] eqn:E; [| discriminate].
    unfold PileupData_init in E. cbn [data_PL] in E.
    set (reads := match column with Some _ => _ | None => [] end) in E.
    destruct (calculate_pl reads ref alt 33) as [[fl' |] | e] eqn:C;
      try discriminate.
    injection E as ->. apply calculate_pl_some in C.
    destruct C as (lik & _ & -> & _).
    pose proof (max3_upper lik) as Hup.
    pose proof (max3_attained lik) as Hin.
    destruct lik as [[a b] c]. unfold normalize, entries in *.
    cbn [option_map map CallData_init PL]. intro H. injection H as <-.
    inversion Hup as [| ? ? Ha Hup']; subst.
    inversion Hup' as [| ? ? Hb Hup'']; subst.
    inversion Hup'' as [| ? ? Hc _]; subst.
    split; [reflexivity | split].
    + assert (Pa : (0 <= py_int (PyFloat (-10 * (a - max3 (a, b, c)))))%Z)
        by (apply py_int_nonneg; lra).
      assert (Pb : (0 <= py_int (PyFloat (-10 * (b - max3 (a, b, c)))))%Z)
        by (apply py_int_nonneg; lra).
      assert (Pc : (0 <= py_int (PyFloat (-10 * (c - max3 (a, b, c)))))%Z)
        by (apply py_int_nonneg; lra).
      apply Forall_cons; [exact Pa |].
      apply Forall_cons; [exact Pb |].
      apply Forall_cons; [exact Pc | apply Forall_nil].
    + change (In 0%Z [py_int (PyFloat (-10 * (a - max3 (a, b, c))));
                      py_int (PyFloat (-10 * (b - max3 (a, b, c))));
                      py_int (PyFloat (-10 * (c - max3 (a, b, c))))]).
      destruct Hin as [E | [E | [E | []]]]; rewrite <- E.
      * left. replace (-10 * (a - a)) with 0 by lra. exact py_int_zero.
      * right. left. replace (-10 * (b - b)) with 0 by lra. exact py_int_zero.
      * right. right. left. replace (-10 * (c - c)) with 0 by lra.
        exact py_int_zero.
Qed.

Lemma PL_record_read_A_q53 :
  PL (pileup "s" (Some [read_A_q53]) "A" "C")
  = Some (map py_int (map PyFloat (normalize lik_A_q53))).
Proof. unfold pileup. rewrite data_PL_read_A_q53. reflexivity. Qed.

Lemma pileup_record_shape_witness :
  List.length (map py_int (map PyFloat (normalize lik_A_q53))) = 3%nat /\
  Forall (fun p => (0 <= p)%Z)
         (map py_int (map PyFloat (normalize lik_A_q53))) /\
  In 0%Z (map py_int (map PyFloat (normalize lik_A_q53))).
Proof.
  exact (proj2 (pileup_record_shape "s" (Some [read_A_q53]) "A" "C")
               _ PL_record_read_A_q53).
Defined.

Lemma swap3_involutive (lik : lik3) : swap3 (swap3 lik) = lik.
Proof. destruct lik as [[a b] c]. reflexivity. Qed.

Lemma accumulate_swap (ref alt : string) (offset : Z) (lik lik' : lik3)
      (r : PileupRead) :
  ref <> alt ->
  accumulate ref alt offset lik r = Ok lik' ->
  accumulate alt ref offset (swap3 lik) r = Ok (swap3 lik').
Proof.
  intros Hne H. apply accumulate_ok_inv in H.
  destruct lik as [[a b] c].
  destruct H as [base q pr p Hb Hq Hr Ha Heq H1 H2 H3 ->
                | base q p pa Hb Hq Hr Ha Hn Heq H1 H2 H3 ->
                | base q pr pa Hb Hq Hr Ha Hn Hn' ->];
    unfold accumulate, swap3; rewrite Hb, Ha, Hr, Hq; cbn [bind fst snd].
  - assert (Hx : char_eq_str base alt = false).
    { destruct (char_eq_str base alt) eqn:E; [| reflexivity].
      exfalso. apply Hne. exact (char_eq_str_unique _ _ _ Heq E). }
    rewrite Hx, Heq. cbn [number bind].
    rewrite !math_log_pos by assumption. reflexivity.
  - rewrite Heq. rewrite math_log_pos by assumption. cbn [number bind].
    rewrite !math_log_pos by assumption. reflexivity.
  - rewrite Hn', Hn. reflexivity.
Qed.

Lemma for_each_swap (ref alt : string) (offset : Z) (reads : list PileupRead) :
  ref <> alt ->
  forall lik lik',
    for_each (accumulate ref alt offset) reads lik = Ok lik' ->
    for_each (accumulate alt ref offset) reads (swap3 lik) = Ok (swap3 lik').
Proof.
  intro Hne. induction reads as [| r rs IH]; intros lik lik' H.
  - injection H as <-. reflexivity.
  - apply for_each_cons_ok in H. destruct H as (mid & Hr & Hrest).
    cbn [for_each]. rewrite (accumulate_swap _ _ _ _ _ _ Hne Hr). cbn [bind].
    exact (IH _ _ Hrest).
Qed.

Lemma normalize_swap (lik : lik3) :
  sum3 (swap3 lik) = sum3 lik /\ normalize (swap3 lik) = rev (normalize lik).
Proof.
  destruct lik as [[a b] c]. unfold sum3, normalize, swap3, max3.
  assert (E : Rmax (Rmax c b) a = Rmax (Rmax a b) c).
  { unfold Rmax. repeat destruct (Rle_dec _ _); lra. }
  rewrite E. split; [lra | reflexivity].
Qed.

(** X5.  Exchanging the reference and the alternate allele (two different
    alleles) exchanges the hom-ref and hom-alt sums and leaves the het sum,
    and so reverses the triple [calculate_pl] returns. *)
Theorem swapping_alleles_reverses_PL :
  forall (reads : list PileupRead) (ref alt : string) (offset : Z),
    ref <> alt ->
    (forall lik,
       likelihoods reads ref alt offset = Ok lik ->
       likelihoods reads alt ref offset = Ok (swap3 lik)) /\
    (forall pl,
       calculate_pl reads ref alt offset = Ok pl ->
       calculate_pl reads alt ref offset = Ok (option_map (@rev R) pl)).
Proof.
  intros reads ref alt offset Hne.
  assert (Hlik : forall lik,
             likelihoods reads ref alt offset = Ok lik ->
             likelihoods reads alt ref offset = Ok (swap3 lik)).
  { intros lik H. unfold likelihoods in *.
    exact (for_each_swap _ _ _ _ Hne _ _ H). }
  split; [exact Hlik |].
  intros pl H. unfold calculate_pl in *.
  destruct (likelihoods reads ref alt offset) as [lik | e] eqn:E;
    cbn [bind] in H; [| discriminate].
  rewrite (Hlik lik eq_refl). cbn [bind].
  destruct (normalize_swap lik) as [-> ->].
  destruct (Rltb (sum3 lik) 0); injection H as <-; reflexivity.
Qed.

Lemma swapping_alleles_reverses_PL_witness :
  likelihoods [read_A_q53] "C" "A" 33 = Ok (swap3 lik_A_q53) /\
  calculate_pl [read_A_q53] "C" "A" 33
  = Ok (option_map (@rev R) (Some (normalize lik_A_q53))).
Proof.
  assert (Hne : "A"%string <> "C"%string) by discriminate.
  split.
  - exact (proj1 (swapping_alleles_reverses_PL [read_A_q53] "A" "C" 33 Hne)
                 _ sums_after_read_A_q53).
  - exact (proj2 (swapping_alleles_reverses_PL [read_A_q53] "A" "C" 33 Hne)
                 _ calculate_pl_read_A_q53).
Defined.

End PileupRecords.

(* ================================================================== *)
(** * More about the pedigree file *)
(* ================================================================== *)

Section PedFileProperties.

Import Ped PedFile Scenario.

Lemma parents_eqb_eq (a b : parents) : parents_eqb a b = true <-> a = b.
Proof.
  destruct a as [a1 a2], b as [b1 b2]. unfold parents_eqb. cbn [fst snd].
  rewrite andb_true_iff, !String.eqb_eq. split.
  - intros [-> ->]. reflexivity.
  - intro H. injection H as -> ->. split; reflexivity.
Qed.

Lemma parents_eqb_refl (a : parents) : parents_eqb a a = true.
Proof. apply parents_eqb_eq. reflexivity. Qed.

Lemma parents_eqb_neq (a b : parents) : parents_eqb a b = false <-> a <> b.
Proof.
  split.
  - intros H E. apply parents_eqb_eq in E. congruence.
  - intro H. destruct (parents_eqb a b) eqn:E; [| reflexivity].
    apply parents_eqb_eq in E. contradiction.
Qed.

(** The unpacking succeeds on six fields and raises [ValueError] on any
    other number. *)
Lemma read_line_fields (samples : list string) (d : offspring_dict)
      (fields : list string) :
  (List.length fields = 6%nat /\ exists d', read_line samples d fields = Ok d') \/
  (List.length fields <> 6%nat /\ read_line samples d fields = Raise ValueError).
Proof.
  destruct fields as [| f1 [| f2 [| f3 [| f4 [| f5 [| f6 [| f7 rest]]]]]]];
    try (right; split; [cbn; lia | reflexivity]).
  left. split; [reflexivity |]. cbn [read_line].
  destruct (mem f2 samples); eauto.
Qed.

Lemma read_lines_error (samples : list string) (ped : list (list string)) :
  forall d e,
    for_each (read_line samples) ped d = Raise e -> e = ValueError.
Proof.
  induction ped as [| l ls IH]; intros d e H; [discriminate |].
  cbn [for_each] in H.
  destruct (read_line_fields samples d l) as [(_ & d' & E) | (_ & E)];
    rewrite E in H; cbn [bind] in H.
  - exact (IH _ _ H).
  - congruence.
Qed.

(** X6.  A line of the PED file that does not split into exactly six fields
    (a blank line, for one) makes [parse_ped] raise [ValueError], whatever
    the other lines are and however the dict is walked. *)
Theorem parse_ped_malformed_line :
  forall (dict_iter : list parents -> list parents)
         (samples : list string) (ped : list (list string))
         (fields : list string),
    In fields ped ->
    List.length fields <> 6%nat ->
    parse_ped dict_iter samples ped = Raise ValueError.
Proof.
  intros dict_iter samples ped fields Hin Hlen. unfold parse_ped.
  assert (Hbad : forall d, exists e, read_line samples d fields = Raise e).
  { intro d. destruct (read_line_fields samples d fields)
      as [(Hl & _) | (_ & E)]; [contradiction | eauto]. }
  destruct (for_each_raises _ _ _ Hin Hbad []) as [e He].
  rewrite He. cbn [bind]. f_equal. exact (read_lines_error _ _ _ _ He).
Qed.

Lemma parse_ped_malformed_line_witness :
  parse_ped (fun ks => ks) ped_samples Inputs.ped_blank_line = Raise ValueError.
Proof.
  apply (parse_ped_malformed_line (fun ks => ks) ped_samples
           Inputs.ped_blank_line []).
  - right. left. reflexivity.
  - cbn. lia.
Defined.

Lemma entry_add_child (d : offspring_dict) (k q : parents) (c : string) :
  entry (add_child d k c) q
  = if parents_eqb k q then entry d k ++ [c] else entry d q.
Proof.
  unfold entry. induction d as [| [k0 cs] rest IH]; cbn [add_child lookup].
  - destruct (parents_eqb k q); reflexivity.
  - destruct (parents_eqb k0 k) eqn:E0; cbn [lookup].
    + apply parents_eqb_eq in E0. subst k0.
      destruct (parents_eqb k q); reflexivity.
    + destruct (parents_eqb k0 q) eqn:E1.
      * apply parents_eqb_eq in E1. subst k0.
        rewrite (proj2 (parents_eqb_neq k q)); [reflexivity |].
        apply parents_eqb_neq in E0. congruence.
      * exact IH.
Qed.

Lemma add_child_nonempty (d : offspring_dict) (k : parents) (c : string) :
  Forall (fun kv => snd kv <> []) d ->
  Forall (fun kv => snd kv <> []) (add_child d k c).
Proof.
  induction 1 as [| [k0 cs] rest Hcs Hrest IH]; cbn [add_child].
  - constructor; [discriminate | constructor].
  - destruct (parents_eqb k0 k); constructor;
      [| exact Hrest | exact Hcs | exact IH].
    cbn [snd]. destruct cs; discriminate.
Qed.

Lemma lookup_key (d : offspring_dict) (k : parents) :
  In k (map fst d) -> exists cs, lookup d k = Ok cs.
Proof.
  induction d as [| [k0 cs] rest IH]; [intros [] |].
  cbn [map fst lookup]. intros [-> | Hin].
  - rewrite parents_eqb_refl. eauto.
  - destruct (parents_eqb k0 k); eauto.
Qed.

Lemma lookup_nonempty (d : offspring_dict) (k : parents) (cs : list string) :
  Forall (fun kv => snd kv <> []) d -> lookup d k = Ok cs -> cs <> [].
Proof.
  induction 1 as [| [k0 cs0] rest Hcs _ IH]; cbn [lookup]; [discriminate |].
  destruct (parents_eqb k0 k); [| exact IH].
  intro H. injection H as <-. exact Hcs.
Qed.

(** After the loop, the entry of each pair holds the sampled children the
    file lists for it, in file order. *)
Lemma read_lines_entries (samples : list string) (ped : list (list string)) :
  Forall (fun fields => List.length fields = 6%nat) ped ->
  forall d,
    Forall (fun kv => snd kv <> []) d ->
    exists d',
      for_each (read_line samples) ped d = Ok d' /\
      Forall (fun kv => snd kv <> []) d' /\
      forall k, entry d' k = entry d k ++ children_in_file samples k ped.
Proof.
  induction 1 as [| l ls Hl _ IH]; intros d Hd.
  - exists d. repeat split; [exact Hd |]. intro k. cbn. now rewrite app_nil_r.
  - destruct l as [| f1 [| f2 [| f3 [| f4 [| f5 [| f6 [| f7 rest]]]]]]];
      try discriminate Hl.
    cbn [for_each read_line]. unfold children_in_file. cbn [flat_map line_child].
    destruct (mem f2 samples) eqn:Em; cbn [bind andb].
    + destruct (IH (add_child d (f3, f4) f2) (add_child_nonempty _ _ _ Hd))
        as (d' & E & Hne & Hent).
      exists d'. repeat split; [exact E | exact Hne |].
      intro k. rewrite Hent, entry_add_child.
      unfold children_in_file.
      destruct (parents_eqb (f3, f4) k) eqn:Ek.
      * apply parents_eqb_eq in Ek. subst k. now rewrite <- app_assoc.
      * reflexivity.
    + destruct (IH d Hd) as (d' & E & Hne & Hent).
      exists d'. repeat split; [exact E | exact Hne |].
      intro k. rewrite Hent. reflexivity.
Qed.

Lemma children_in_file_sampled (samples : list string) (k : parents)
      (ped : list (list string)) :
  Forall (fun c => mem c samples = true) (children_in_file samples k ped).
Proof.
  unfold children_in_file. induction ped as [| l ls IH]; [constructor |].
  cbn [flat_map]. apply Forall_app. split; [| exact IH].
  destruct l as [| f1 [| f2 [| f3 [| f4 [| f5 [| f6 [| f7 rest]]]]]]];
    try constructor.
  cbn [line_child]. destruct (mem f2 samples) eqn:Em; cbn [andb];
    [| constructor].
  destruct (parents_eqb (f3, f4) k); repeat constructor. exact Em.
Qed.

(** X7.  On a PED file whose lines all have six fields, with a dict that
    walks exactly its keys: the family [parse_ped] returns has, as its
    children, the individuals the file lists for the chosen parent pair
    that are samples, in file order; there is at least one; and
    [parse_ped] raises ([ValueError], from [max] of an empty dict) exactly
    when no individual of the file is a sample. *)
Theorem parse_ped_children :
  forall (dict_iter : list parents -> list parents)
         (samples : list string) (ped : list (list string)),
    (forall ks, Permutation ks (dict_iter ks)) ->
    Forall (fun fields => List.length fields = 6%nat) ped ->
    match parse_ped dict_iter samples ped with
    | Ok fam =>
        children fam = children_in_file samples (father fam, mother fam) ped /\
        children fam <> [] /\
        Forall (fun c => mem c samples = true) (children fam)
    | Raise e =>
        e = ValueError /\ forall k, children_in_file samples k ped = []
    end.
Proof.
  intros dict_iter samples ped Hperm Hwf. unfold parse_ped.
  destruct (read_lines_entries samples ped Hwf [] (Forall_nil _))
    as (d & E & Hne & Hent).
  rewrite E. cbn [bind]. rewrite max_by_tuple_len.
  specialize (Hperm (map fst d)).
  destruct (dict_iter (map fst d)) as [| k ks] eqn:Ek; cbn [bind].
  - split; [reflexivity |]. intro k.
    apply Permutation_sym, Permutation_nil in Hperm.
    destruct d as [| kv d']; [| discriminate].
    pose proof (Hent k) as Hk. unfold entry in Hk. cbn [lookup app] in Hk.
    symmetry. exact Hk.
  - assert (Hin : In k (map fst d)).
    { apply (Permutation_in _ (Permutation_sym Hperm)). left. reflexivity. }
    destruct (lookup_key d k Hin) as [cs Hcs]. rewrite Hcs. cbn [bind].
    cbn [children father mother]. rewrite <- surjective_pairing.
    assert (Ecs : cs = children_in_file samples k ped).
    { specialize (Hent k). unfold entry in Hent at 1. rewrite Hcs in Hent.
      exact Hent. }
    split; [exact Ecs | split].
    + exact (lookup_nonempty d k cs Hne Hcs).
    + rewrite Ecs. apply children_in_file_sampled.
Qed.

Lemma parse_ped_children_witness :
  match parse_ped (fun ks => ks) ped_samples ped_B with
  | Ok fam =>
      children fam
      = children_in_file ped_samples (father fam, mother fam) ped_B /\
      children fam <> [] /\
      Forall (fun c => mem c ped_samples = true) (children fam)
  | Raise e =>
      e = ValueError /\ forall k, children_in_file ped_samples k ped_B = []
  end.
Proof.
  apply (parse_ped_children (fun ks => ks) ped_samples ped_B).
  - intro ks. apply Permutation_refl.
  - repeat constructor.
Defined.

End PedFileProperties.

(* ================================================================== *)
(** * More about [Marker.__init__] *)
(* ================================================================== *)

Section MarkerSeeds.

Import Call Unrelated Scenario.

Lemma missing_bounds (cs : list CallData) :
  (0 <= missing cs <= Z.of_nat (List.length cs))%Z.
Proof.
  unfold missing.
  pose proof (filter_length_le (fun c => (DP c =? 0)%Z) cs). lia.
Qed.

(** A positive total depth leaves at least one sample with reads. *)
Lemma depth_pos_some_covered (cs : list CallData) :
  (0 < total_depth cs)%Z ->
  (missing cs < Z.of_nat (List.length cs))%Z.
Proof.
  unfold total_depth, missing. induction cs as [| c cs IH]; cbn [map fold_right].
  - lia.
  - cbn [filter List.length]. destruct (DP c =? 0)%Z eqn:E; cbn [List.length].
    + apply Z.eqb_eq in E. rewrite E. intro H. specialize (IH H). lia.
    + intros _. pose proof (filter_length_le (fun c => (DP c =? 0)%Z) cs). lia.
Qed.

(** Samples with reads have at least one read each. *)
Lemma depth_ge_covered (cs : list CallData) :
  Forall (fun c => (0 <= DP c)%Z) cs ->
  (Z.of_nat (List.length cs) - missing cs <= total_depth cs)%Z.
Proof.
  unfold total_depth, missing.
  induction 1 as [| c cs Hc _ IH]; cbn [map fold_right filter List.length].
  - lia.
  - destruct (DP c =? 0)%Z eqn:E; cbn [List.length].
    + apply Z.eqb_eq in E. lia.
    + apply Z.eqb_neq in E. lia.
Qed.

(** X8.  For a marker with a positive total depth, both tracks start live
    with the same coverage and digest-failure seeds.  The coverage seed is
    the total depth divided by the number of samples with reads, which is
    at least 1 (no division by zero); the digest-failure seed lies in
    [0.01, 1); and when no depth is negative the coverage seed lies between
    1 and the total depth. *)
Theorem seed_coverage_bounds :
  forall (info : AF_info) (cs : list CallData) (slope intercept : R)
         (m : Marker),
    Marker_init info cs slope intercept = Ok m ->
    (0 < total_depth cs)%Z ->
    exists lam del : R,
      map lambda (param_H1 m) = [Some (Fin lam)] /\
      map lambda (param_H0 m) = [Some (Fin lam)] /\
      map delta (param_H1 m) = [Some (Fin del)] /\
      map delta (param_H0 m) = [Some (Fin del)] /\
      map fail (param_H1 m) = [false] /\
      map fail (param_H0 m) = [false] /\
      disp m = Some (slope * lam + intercept) /\
      (1 <= Z.of_nat (List.length cs) - missing cs)%Z /\
      lam = IZR (total_depth cs) / IZR (Z.of_nat (List.length cs) - missing cs) /\
      0.01 <= del < 1 /\
      (Forall (fun c => (0 <= DP c)%Z) cs -> 1 <= lam <= IZR (total_depth cs)).
Proof.
  intros info cs slope intercept m H Hdp. unfold Marker_init in H.
  destruct (seed_phi info cs) as [[phi1 phi0] | e]; cbn [bind] in H;
    [| discriminate].
  rewrite (proj2 (Z.ltb_lt 0 (total_depth cs)) Hdp) in H.
  injection H as <-. cbn [param_H1 param_H0 disp map lambda delta fail].
  pose proof (depth_pos_some_covered cs Hdp) as Hcov.
  pose proof (missing_bounds cs) as Hmiss.
  set (n := Z.of_nat (List.length cs)) in *.
  set (k := (n - missing cs)%Z).
  assert (Hk : (1 <= k)%Z) by (subst k; lia).
  assert (HkR : 1 <= IZR k) by (apply IZR_le in Hk; exact Hk).
  assert (HnR : 0 < IZR n) by (apply IZR_lt; lia).
  eexists _, _. repeat split; try reflexivity; try exact Hk.
  - apply Rmax_r.
  - apply Rmax_case; [| lra].
    apply Rmult_lt_reg_r with (r := IZR n); [exact HnR |].
    unfold Rdiv. rewrite Rmult_assoc, Rinv_l, Rmult_1_r, Rmult_1_l by lra.
    apply IZR_lt. exact Hcov.
  - apply Rmult_le_reg_r with (r := IZR k); [lra |].
    unfold Rdiv. rewrite Rmult_assoc, Rinv_l, Rmult_1_r, Rmult_1_l by lra.
    apply IZR_le. subst k n. apply depth_ge_covered. assumption.
  - assert (Ht : IZR k <= IZR (total_depth cs))
      by (apply IZR_le; subst k n; apply depth_ge_covered; assumption).
    apply Rmult_le_reg_r with (r := IZR k); [lra |].
    unfold Rdiv. rewrite Rmult_assoc, Rinv_l, Rmult_1_r by lra. nra.
Qed.

Lemma seed_coverage_bounds_witness :
  exists m,
    Marker_init None [call_with_PL; call_without_PL; call_no_reads] 0 2.5
    = Ok m /\
    exists lam del : R,
      map lambda (param_H1 m) = [Some (Fin lam)] /\
      map lambda (param_H0 m) = [Some (Fin lam)] /\
      map delta (param_H1 m) = [Some (Fin del)] /\
      map delta (param_H0 m) = [Some (Fin del)] /\
      map fail (param_H1 m) = [false] /\
      map fail (param_H0 m) = [false] /\
      disp m = Some (0 * lam + 2.5) /\
      (1 <= 3 - missing [call_with_PL; call_without_PL; call_no_reads])%Z /\
      lam = IZR 8 / IZR 2 /\
      0.01 <= del < 1 /\
      (Forall (fun c => (0 <= DP c)%Z)
              [call_with_PL; call_without_PL; call_no_reads] ->
       1 <= lam <= IZR 8).
Proof.
  eexists. split; [reflexivity |].
  apply (seed_coverage_bounds
           None [call_with_PL; call_without_PL; call_no_reads] 0 2.5);
    reflexivity.
Defined.

(** X9.  The allele-frequency seeds of both tracks add up to 1; the dropout
    component is 0.01 under H1 and 0 under H0, and the H1 seed is the H0
    seed scaled by 0.99.  When the supplied frequency is not negative, no
    component is negative and the reference component is positive. *)
Theorem seed_phi_is_a_distribution :
  forall (info : AF_info) (cs : list CallData) (slope intercept : R)
         (m : Marker),
    Marker_init info cs slope intercept = Ok m ->
    exists a1 b1 a0 b0 : R,
      map phi (param_H1 m) = [[Fin a1; Fin b1; Fin 0.01]] /\
      map phi (param_H0 m) = [[Fin a0; Fin b0; Fin 0]] /\
      a1 + b1 + 0.01 = 1 /\
      a0 + b0 + 0 = 1 /\
      a1 = a0 * 0.99 /\ b1 = b0 * 0.99 /\
      ((forall x rest, info = Some (Some x :: rest) -> 0 <= x) ->
       0 < a0 /\ 0 <= b0 /\ 0 < a1 /\ 0 <= b1).
Proof.
  intros info cs slope intercept m H. unfold Marker_init in H.
  destruct (seed_phi info cs) as [[phi1 phi0] | e] eqn:E; cbn [bind] in H;
    [| discriminate].
  assert (Hm : map phi (param_H1 m) = [phi1] /\ map phi (param_H0 m) = [phi0])
    by (destruct (0 <? total_depth cs)%Z; injection H as <-; split; reflexivity).
  destruct Hm as [-> ->]. clear H. unfold seed_phi, dfreq in E.
  destruct (dp_mode cs).
  - injection E as <- <-. exists (1 - 0.01), 0, 1, 0.
    repeat split; try reflexivity; lra.
  - destruct (seed_af info) as [af |] eqn:Eaf; cbn [number bind] in E;
      [| discriminate].
    injection E as <- <-.
    exists ((1 - af) * (1 - 0.01)), (af * (1 - 0.01)), (1 - af), af.
    repeat split; try reflexivity; try lra;
      destruct info as [[| [x |] rest] |]; cbn [seed_af] in Eaf;
      try discriminate; injection Eaf as <-; try lra;
      specialize (H x rest eq_refl); unfold Rltb;
      destruct (Rlt_dec x 0.9999); lra.
Qed.

Lemma seed_phi_is_a_distribution_witness :
  exists m,
    Marker_init (Some [Some 0.25]) [call_with_PL; call_without_PL] 0 2.5
    = Ok m /\
    exists a1 b1 a0 b0 : R,
      map phi (param_H1 m) = [[Fin a1; Fin b1; Fin 0.01]] /\
      map phi (param_H0 m) = [[Fin a0; Fin b0; Fin 0]] /\
      a1 + b1 + 0.01 = 1 /\
      a0 + b0 + 0 = 1 /\
      a1 = a0 * 0.99 /\ b1 = b0 * 0.99 /\
      ((forall x rest, Some [Some 0.25] = Some (Some x :: rest) -> 0 <= x) ->
       0 < a0 /\ 0 <= b0 /\ 0 < a1 /\ 0 <= b1).
Proof.
  eexists. split; [reflexivity |].
  apply (seed_phi_is_a_distribution
           (Some [Some 0.25]) [call_with_PL; call_without_PL] 0 2.5).
  reflexivity.
Defined.

(** X10.  [Marker.__init__] raises only a [TypeError], and does so exactly
    when some sample has genotype likelihoods and the first [AF] value of
    the record is missing ([None]): Python 2 takes [min(0.9999, None)] to
    be [None], and [1 - None] raises. *)
Theorem Marker_init_raises_iff :
  forall (info : AF_info) (cs : list CallData) (slope intercept : R),
    (forall e, Marker_init info cs slope intercept = Raise e -> e = TypeError) /\
    ((exists e, Marker_init info cs slope intercept = Raise e) <->
     (existsb has_PL cs = true /\ exists rest, info = Some (None :: rest))).
Proof.
  intros info cs slope intercept. unfold Marker_init, seed_phi, dp_mode.
  destruct (existsb has_PL cs); cbn [negb].
  - destruct info as [[| [x |] rest] |]; cbn [seed_af number bind];
      destruct (0 <? total_depth cs)%Z;
      (split;
       [ intros e He;
         first [discriminate He | injection He as <-; reflexivity]
       | split;
         [ intros [e He];
           first [discriminate He | split; [reflexivity | eauto]]
         | intros [_ [rest' Hr]]; first [discriminate Hr | eauto] ] ]).
  - cbn [bind]. destruct (0 <? total_depth cs)%Z;
      (split;
       [ intros e He; discriminate He
       | split; [intros [e He]; discriminate He | intros [Hf _]; discriminate Hf] ]).
Qed.

End MarkerSeeds.

(* ================================================================== *)
(** * More about convergence and updates *)
(* ================================================================== *)

Section ConvergenceProperties.

Import Call Scenario.

Lemma last_two_items {A : Type} (pre : list A) (a b : A) :
  last_item (pre ++ [a; b]) = Ok b /\
  second_last_item (pre ++ [a; b]) = Ok a /\
  (1 <? List.length (pre ++ [a; b]))%nat = true.
Proof.
  unfold last_item, second_last_item. rewrite rev_app_distr. cbn [rev app].
  repeat split. apply Nat.ltb_lt. rewrite length_app. cbn [List.length]. lia.
Qed.

Lemma unrelated_check_last_two (pre : list Unrelated.snapshot)
      (a b : Unrelated.snapshot) (t1 t2 t3 : pyfloat) :
  Unrelated.check_convergence (pre ++ [a; b]) t1 t2 t3
  = Unrelated.check_convergence [a; b] t1 t2 t3.
Proof.
  unfold Unrelated.check_convergence.
  destruct (last_two_items pre a b) as (-> & -> & ->).
  destruct (last_two_items [] a b) as (E1 & E2 & E3). cbn [app] in E1, E2, E3.
  rewrite E1, E2, E3. reflexivity.
Qed.

Lemma trio_check_last_two (pre : list Trio.snapshot) (a b : Trio.snapshot)
      (tol : pyfloat) :
  Trio.check_convergence (pre ++ [a; b]) tol = Trio.check_convergence [a; b] tol.
Proof.
  unfold Trio.check_convergence.
  destruct (last_two_items pre a b) as (-> & -> & ->).
  destruct (last_two_items [] a b) as (E1 & E2 & E3). cbn [app] in E1, E2, E3.
  rewrite E1, E2, E3. reflexivity.
Qed.

(** X11.  The convergence check looks at the last two snapshots only: the
    history before them changes neither its answer nor its exception, for
    unrelated samples and for trios. *)
Theorem check_convergence_last_two :
  (forall (pre : list Unrelated.snapshot) (a b : Unrelated.snapshot)
          (phi_tol lamb_tol delta_tol : pyfloat),
     Unrelated.check_convergence (pre ++ [a; b]) phi_tol lamb_tol delta_tol
     = Unrelated.check_convergence [a; b] phi_tol lamb_tol delta_tol) /\
  (forall (pre : list Trio.snapshot) (a b : Trio.snapshot) (lamb_tol : pyfloat),
     Trio.check_convergence (pre ++ [a; b]) lamb_tol
     = Trio.check_convergence [a; b] lamb_tol).
Proof.
  split; [exact unrelated_check_last_two | exact trio_check_last_two].
Qed.

(** X12.  On two last snapshots with finite estimates, the second one not
    failed, the check returns (it does not raise), and it returns true
    exactly when the changes of [phi[1]] and [phi[2]] are within
    [phi_tol], the change of [lambda] within [lamb_tol] and the change of
    [delta] within [delta_tol]; for a trio, exactly when the change of
    [lambda] is within [lamb_tol]. *)
Theorem convergence_criterion :
  (forall (pre : list Unrelated.snapshot) (a b : Unrelated.snapshot)
          (c1 c2 p1 p2 la lb da db phi_tol lamb_tol delta_tol : R),
     Unrelated.fail b = false ->
     nth_error (Unrelated.phi b) 1 = Some (Fin c1) ->
     nth_error (Unrelated.phi b) 2 = Some (Fin c2) ->
     nth_error (Unrelated.phi a) 1 = Some (Fin p1) ->
     nth_error (Unrelated.phi a) 2 = Some (Fin p2) ->
     Unrelated.lambda b = Some (Fin lb) ->
     Unrelated.lambda a = Some (Fin la) ->
     Unrelated.delta b = Some (Fin db) ->
     Unrelated.delta a = Some (Fin da) ->
     exists r,
       Unrelated.check_convergence (pre ++ [a; b])
         (Fin phi_tol) (Fin lamb_tol) (Fin delta_tol) = Ok r /\
       (r = true <->
        Rabs (c1 - p1) <= phi_tol /\ Rabs (c2 - p2) <= phi_tol /\
        Rabs (lb - la) <= lamb_tol /\ Rabs (db - da) <= delta_tol)) /\
  (forall (pre : list Trio.snapshot) (a b : Trio.snapshot)
          (la lb lamb_tol : R),
     Trio.fail b = false ->
     Trio.lambda b = Some (Fin lb) ->
     Trio.lambda a = Some (Fin la) ->
     exists r,
       Trio.check_convergence (pre ++ [a; b]) (Fin lamb_tol) = Ok r /\
       (r = true <-> Rabs (lb - la) <= lamb_tol)).
Proof.
  split.
  - intros pre a b c1 c2 p1 p2 la lb da db t1 t2 t3
           Hf Hc1 Hc2 Hp1 Hp2 Hlb Hla Hdb Hda.
    rewrite unrelated_check_last_two. unfold Unrelated.check_convergence.
    destruct (last_two_items [] a b) as (E1 & E2 & E3). cbn [app] in E1, E2, E3.
    rewrite E1, E2, E3. cbn [bind]. rewrite Hf. unfold item.
    rewrite Hc1, Hp1, Hc2, Hp2. cbn [bind]. rewrite Hlb, Hla, Hdb, Hda.
    cbn [py_sub bind fsub fneg fadd fabs]. unfold fmax2.
    cbn [fgtb]. unfold Rltb, Rminus.
    destruct (Rlt_dec (Rabs (c1 + - p1)) (Rabs (c2 + - p2)));
      cbn [fgtb]; unfold Rltb;
      repeat destruct (Rlt_dec _ _); cbn [orb];
      eexists; (split; [reflexivity |]);
      (split; [intro H; try discriminate H; repeat split; lra
              | intros (A1 & A2 & A3 & A4); try reflexivity; exfalso; lra]).
  - intros pre a b la lb tol Hf Hlb Hla.
    rewrite trio_check_last_two. unfold Trio.check_convergence.
    destruct (last_two_items [] a b) as (E1 & E2 & E3). cbn [app] in E1, E2, E3.
    rewrite E1, E2, E3. cbn [bind]. rewrite Hf, Hlb, Hla.
    cbn [py_sub bind fsub fneg fadd fabs fgtb]. unfold Rltb, Rminus.
    destruct (Rlt_dec _ _); eexists; (split; [reflexivity |]);
      (split; [intro H; try discriminate H; lra
              | intro A; try reflexivity; exfalso; lra]).
Qed.

Lemma convergence_criterion_witness :
  (exists r,
     Unrelated.check_convergence ([seed_live] ++ [fitted (-12); fitted (-11)])
       (Fin 0.001) (Fin 0.1) (Fin 0.005) = Ok r /\
     (r = true <->
      Rabs (0.05 - 0.05) <= 0.001 /\ Rabs (0.05 - 0.05) <= 0.001 /\
      Rabs (4 - 4) <= 0.1 /\ Rabs (0.1 - 0.1) <= 0.005)) /\
  (exists r,
     Trio.check_convergence
       ([] ++ [ped_seed; Trio.mkSnapshot (Some (Fin 4.5)) false None])
       (Fin 0.25) = Ok r /\
     (r = true <-> Rabs (4.5 - 4) <= 0.25)).
Proof.
  split.
  - apply (proj1 convergence_criterion [seed_live]
                 (fitted (-12)) (fitted (-11))); reflexivity.
  - apply (proj2 convergence_criterion []
                 ped_seed (Trio.mkSnapshot (Some (Fin 4.5)) false None));
      reflexivity.
Defined.

(** X13.  Estimates that are [nan] never keep a track running: when the
    last snapshot is not failed and its estimates are [nan], every
    comparison with a tolerance is false and the check returns true,
    whatever the tolerances and whatever numbers the snapshot before
    holds. *)
Theorem nan_estimates_count_as_converged :
  (forall (pre : list Unrelated.snapshot) (a b : Unrelated.snapshot)
          (x1 x2 la da phi_tol lamb_tol delta_tol : pyfloat),
     Unrelated.fail b = false ->
     nth_error (Unrelated.phi b) 1 = Some NaN ->
     nth_error (Unrelated.phi b) 2 = Some NaN ->
     nth_error (Unrelated.phi a) 1 = Some x1 ->
     nth_error (Unrelated.phi a) 2 = Some x2 ->
     Unrelated.lambda b = Some NaN ->
     Unrelated.lambda a = Some la ->
     Unrelated.delta b = Some NaN ->
     Unrelated.delta a = Some da ->
     Unrelated.check_convergence (pre ++ [a; b]) phi_tol lamb_tol delta_tol
     = Ok true) /\
  (forall (pre : list Trio.snapshot) (a b : Trio.snapshot)
          (la lamb_tol : pyfloat),
     Trio.fail b = false ->
     Trio.lambda b = Some NaN ->
     Trio.lambda a = Some la ->
     Trio.check_convergence (pre ++ [a; b]) lamb_tol = Ok true).
Proof.
  split.
  - intros pre a b x1 x2 la da t1 t2 t3 Hf Hc1 Hc2 Hp1 Hp2 Hlb Hla Hdb Hda.
    rewrite unrelated_check_last_two. unfold Unrelated.check_convergence.
    destruct (last_two_items [] a b) as (E1 & E2 & E3). cbn [app] in E1, E2, E3.
    rewrite E1, E2, E3. cbn [bind]. rewrite Hf. unfold item.
    rewrite Hc1, Hp1, Hc2, Hp2. cbn [bind]. rewrite Hlb, Hla, Hdb, Hda.
    reflexivity.
  - intros pre a b la tol Hf Hlb Hla.
    rewrite trio_check_last_two. unfold Trio.check_convergence.
    destruct (last_two_items [] a b) as (E1 & E2 & E3). cbn [app] in E1, E2, E3.
    rewrite E1, E2, E3. cbn [bind]. rewrite Hf, Hlb, Hla. reflexivity.
Qed.

Lemma nan_estimates_count_as_converged_witness :
  Unrelated.check_convergence ([seed_live] ++ [fitted (-12); Inputs.nan_snapshot])
    (Fin 0.001) (Fin 0.1) (Fin 0.005) = Ok true /\
  Trio.check_convergence ([] ++ [ped_seed; Inputs.ped_nan_snapshot]) (Fin 0.25)
  = Ok true.
Proof.
  split.
  - apply (proj1 nan_estimates_count_as_converged [seed_live]
                 (fitted (-12)) Inputs.nan_snapshot
                 (Fin 0.05) (Fin 0.05) (Fin 4) (Fin 0.1)); reflexivity.
  - apply (proj2 nan_estimates_count_as_converged []
                 ped_seed Inputs.ped_nan_snapshot (Fin 4)); reflexivity.
Defined.

End ConvergenceProperties.

Section UpdateProperties.

Import Call Scenario.

Lemma last_item_nonempty {A : Type} (xs : list A) :
  xs <> [] -> exists x, last_item xs = Ok x.
Proof.
  intro H. unfold last_item. destruct (rev xs) as [| x rest] eqn:E.
  - exfalso. apply H. rewrite <- (rev_involutive xs), E. reflexivity.
  - exists x. reflexivity.
Qed.

(** X14.  On a history that is not empty [update_param] returns a snapshot
    whatever the solver does (its exceptions never escape), and for a trio
    the snapshot returned is never live with a log-likelihood of [-inf];
    on an empty history both raise [IndexError]. *)
Theorem update_param_never_raises :
  (forall (em_update : Unrelated.snapshot -> list CallData -> option R ->
                       result Unrelated.snapshot)
          (m : Unrelated.Marker) (param : list Unrelated.snapshot),
     param <> [] ->
     exists s, Unrelated.update_param em_update m param = Ok s) /\
  (forall (ped_update : Trio.snapshot -> list CallData -> option R ->
                        Trio.geno -> result Trio.snapshot)
          (m : Trio.PedMarker) (param : list Trio.snapshot) (gt : Trio.geno),
     param <> [] ->
     exists s,
       Trio.update_param ped_update m param gt = Ok s /\
       (Trio.loglik s = Some NInf -> Trio.fail s = true)) /\
  (forall em_update m, Unrelated.update_param em_update m [] = Raise IndexError) /\
  (forall ped_update m gt,
     Trio.update_param ped_update m [] gt = Raise IndexError).
Proof.
  split; [| split; [| split; reflexivity]].
  - intros em_update m param Hne.
    destruct (last_item_nonempty param Hne) as [cur Hcur].
    unfold Unrelated.update_param. rewrite Hcur. cbn [bind].
    destruct (em_update cur (Unrelated.calls m) (Unrelated.disp m)); eauto.
  - intros ped_update m param gt Hne.
    destruct (last_item_nonempty param Hne) as [cur Hcur].
    unfold Trio.update_param. rewrite Hcur. cbn [bind].
    set (param_new := match ped_update cur _ _ gt with
                      | Ok p => p
                      | Raise _ => Trio.set_failed cur
                      end).
    destruct (py_eq (Trio.loglik param_new) (Some NInf)) eqn:E.
    + eexists. split; [reflexivity |]. reflexivity.
    + eexists. split; [reflexivity |]. intro H. rewrite H in E. discriminate.
Qed.

Lemma update_param_never_raises_witness :
  (exists s,
     Unrelated.update_param solver_raises marker_live [seed_live] = Ok s) /\
  (exists s,
     Trio.update_param ped_solver_neg_inf (ped_marker_uniform 0) [ped_seed]
                       dropout_parents = Ok s /\
     (Trio.loglik s = Some NInf -> Trio.fail s = true)).
Proof.
  split.
  - apply (proj1 update_param_never_raises). discriminate.
  - apply (proj1 (proj2 update_param_never_raises)). discriminate.
Defined.

(** X15.  The likelihood ratio of an unrelated-sample marker is a number
    exactly when both histories are non-empty and both last
    log-likelihoods are numbers.  Infinite log-likelihoods are numbers
    here: [-inf] under H0 against a finite H1 gives [inf], the reverse
    gives [-inf], and [-inf] under both gives [nan], not [None]. *)
Theorem likelihood_ratio_defined_iff :
  forall m : Unrelated.Marker,
    (Unrelated.likelihood_ratio m <> None <->
     exists h0 h1 x y,
       last_item (Unrelated.param_H0 m) = Ok h0 /\
       last_item (Unrelated.param_H1 m) = Ok h1 /\
       Unrelated.loglik h0 = Some x /\ Unrelated.loglik h1 = Some y) /\
    (forall h0 h1,
       last_item (Unrelated.param_H0 m) = Ok h0 ->
       last_item (Unrelated.param_H1 m) = Ok h1 ->
       (forall y, Unrelated.loglik h0 = Some NInf ->
                  Unrelated.loglik h1 = Some (Fin y) ->
                  Unrelated.likelihood_ratio m = Some PInf) /\
       (forall x, Unrelated.loglik h0 = Some (Fin x) ->
                  Unrelated.loglik h1 = Some NInf ->
                  Unrelated.likelihood_ratio m = Some NInf) /\
       (Unrelated.loglik h0 = Some NInf ->
        Unrelated.loglik h1 = Some NInf ->
        Unrelated.likelihood_ratio m = Some NaN)).
Proof.
  intro m. unfold Unrelated.likelihood_ratio. split.
  - destruct (last_item (Unrelated.param_H0 m)) as [h0 | e0]; cbn [bind].
    + destruct (last_item (Unrelated.param_H1 m)) as [h1 | e1]; cbn [bind].
      * destruct (Unrelated.loglik h0) as [x |] eqn:E0,
                 (Unrelated.loglik h1) as [y |] eqn:E1; cbn [py_sub bind];
          (split;
           [ intro H; first [ exfalso; apply H; reflexivity
                            | exists h0, h1, x, y; repeat split; assumption ]
           | intros (h0' & h1' & x' & y' & A & B & C & D);
             first [ discriminate
                   | injection A as <-; injection B as <-; congruence ] ]).
      * split; [intro H; exfalso; apply H; reflexivity |].
        intros (h0' & h1' & x' & y' & _ & B & _). discriminate B.
    + split; [intro H; exfalso; apply H; reflexivity |].
      intros (h0' & h1' & x' & y' & A & _). discriminate A.
  - intros h0 h1 -> ->. cbn [bind]. repeat split.
    + intros y -> ->. cbn [py_sub bind fsub fneg fadd fscale].
      rewrite Rltb_false by lra. reflexivity.
    + intros x -> ->. cbn [py_sub bind fsub fneg fadd fscale].
      rewrite Rltb_false by lra. reflexivity.
    + intros -> ->. reflexivity.
Qed.

End UpdateProperties.

(* ================================================================== *)
(** * More about the trio likelihood ratio *)
(* ================================================================== *)

Section TrioRatioErrors.

Import Call Trio Scenario.

Lemma final_loglik_nonempty (t : geno * list snapshot) :
  snd t <> [] -> exists v, final_loglik t = Ok v.
Proof.
  intro H. unfold final_loglik.
  destruct (last_item_nonempty (snd t) H) as [s ->]. cbn [bind]. eauto.
Qed.

Lemma comprehension_final_loglik (p : tracks) :
  Forall (fun t => snd t <> []) p ->
  exists lls,
    comprehension final_loglik p = Ok lls /\ List.length lls = List.length p.
Proof.
  induction 1 as [| t p' Ht _ IH].
  - exists []. split; reflexivity.
  - destruct (final_loglik_nonempty t Ht) as [v Hv].
    destruct IH as (lls & E & Hlen). exists (v :: lls).
    cbn [comprehension]. rewrite Hv, E. cbn [bind List.length].
    split; [reflexivity | lia].
Qed.

Lemma add_track_outcome (maxlik : pyval) (acc : pyfloat * pyfloat)
      (t : geno * list snapshot) :
  snd t <> [] ->
  (exists acc', add_track maxlik acc t = Ok acc') \/
  add_track maxlik acc t = Raise TypeError.
Proof.
  intro H. destruct acc as [h0 h1]. unfold add_track.
  destruct (final_loglik_nonempty t H) as [v ->]. cbn [bind].
  destruct (is_null (fst t)), v as [x |], maxlik as [mx |];
    cbn [py_sub bind]; eauto.
Qed.

Lemma add_track_no_loglik (maxlik : pyval) (acc : pyfloat * pyfloat)
      (t : geno * list snapshot) :
  final_loglik t = Ok None -> add_track maxlik acc t = Raise TypeError.
Proof.
  intro H. destruct acc as [h0 h1]. unfold add_track. rewrite H. cbn [bind].
  destruct (is_null (fst t)); reflexivity.
Qed.

Lemma add_tracks_no_loglik (maxlik : pyval) (p : tracks) :
  Forall (fun t => snd t <> []) p ->
  Exists (fun t => final_loglik t = Ok None) p ->
  forall acc, for_each (add_track maxlik) p acc = Raise TypeError.
Proof.
  induction 1 as [| t p' Ht _ IH]; intros Hex acc.
  - inversion Hex.
  - cbn [for_each]. inversion Hex as [? ? Hnone | ? ? Hrest]; subst.
    + rewrite (add_track_no_loglik maxlik acc t Hnone). reflexivity.
    + destruct (add_track_outcome maxlik acc t Ht) as [[acc' ->] | ->];
        cbn [bind]; [exact (IH Hrest acc') | reflexivity].
Qed.

Lemma PedMarker_init_param (cs : list CallData) (slope intercept : R) :
  exists s,
    loglik s = None /\
    param (PedMarker_init cs slope intercept)
    = map (fun gt => (gt, [s])) trio_gt.
Proof.
  unfold PedMarker_init.
  destruct (0 <? Unrelated.total_depth cs)%Z; eexists;
    (split; [| reflexivity]); reflexivity.
Qed.

(** X16.  The trio likelihood ratio raises [TypeError] as soon as one track
    ends without a log-likelihood: the method has no handler, unlike
    [Marker.likelihood_ratio].  That is the case of every marker as
    constructed, and so of a marker without reads, whose tracks start
    failed and are never updated. *)
Theorem pedigree_ratio_needs_all_logliks :
  (forall m : PedMarker,
     Forall (fun t => snd t <> []) (param m) ->
     Exists (fun t => final_loglik t = Ok None) (param m) ->
     likelihood_ratio m = Raise TypeError) /\
  (forall (cs : list CallData) (slope intercept : R),
     likelihood_ratio (PedMarker_init cs slope intercept) = Raise TypeError).
Proof.
  assert (Hgen : forall m : PedMarker,
             Forall (fun t => snd t <> []) (param m) ->
             Exists (fun t => final_loglik t = Ok None) (param m) ->
             likelihood_ratio m = Raise TypeError).
  { intros m Hne Hex. unfold likelihood_ratio.
    destruct (comprehension_final_loglik _ Hne) as (lls & -> & Hlen).
    cbn [bind]. destruct lls as [| v lls].
    - destruct (param m); [inversion Hex | discriminate Hlen].
    - cbn [max_by bind]. rewrite (add_tracks_no_loglik _ _ Hne Hex).
      reflexivity. }
  split; [exact Hgen |].
  intros cs slope intercept. apply Hgen;
    destruct (PedMarker_init_param cs slope intercept) as (s & Hs & ->).
  - apply Forall_map, Forall_forall. intros gt _. discriminate.
  - apply Exists_cons_hd. unfold final_loglik. cbn. rewrite Hs. reflexivity.
Qed.

Lemma pedigree_ratio_needs_all_logliks_witness :
  likelihood_ratio (PedMarker_init [call_no_reads] 0 2.5) = Raise TypeError.
Proof.
  apply (proj1 pedigree_ratio_needs_all_logliks).
  - destruct (PedMarker_init_param [call_no_reads] 0 2.5) as (s & _ & ->).
    apply Forall_map, Forall_forall. intros gt _. discriminate.
  - destruct (PedMarker_init_param [call_no_reads] 0 2.5) as (s & Hs & ->).
    apply Exists_cons_hd. unfold final_loglik. cbn. rewrite Hs. reflexivity.
Defined.

(** [max] over log-likelihoods that are finite or [-inf], after a finite
    one has been seen, is finite. *)
Lemma max_after_finite (vs : list pyfloat) :
  Forall (fun v => v = NInf \/ exists x, v = Fin x) vs ->
  forall x,
    exists mx,
      fold_left (fun m y : pyval => if py_gt y m then y else m)
                (map (@Some pyfloat) vs) (Some (Fin x))
      = Some (Fin mx).
Proof.
  induction 1 as [| v vs Hv _ IH]; intro x; [exists x; reflexivity |].
  cbn [map fold_left]. destruct Hv as [-> | [y ->]]; cbn [py_gt fgtb].
  - exact (IH x).
  - destruct (Rltb x y); [exact (IH y) | exact (IH x)].
Qed.

Lemma max_finite_or_neg_inf (vs : list pyfloat) :
  Forall (fun v => v = NInf \/ exists x, v = Fin x) vs ->
  Exists (fun v => exists x, v = Fin x) vs ->
  exists mx, max_by py_gt (fun v => v) (map (@Some pyfloat) vs) = Ok (Some (Fin mx)).
Proof.
  intros Hall Hex. destruct vs as [| v vs]; [inversion Hex |].
  cbn [map max_by]. inversion Hall as [| ? ? Hv Hvs]; subst.
  destruct Hv as [-> | [x ->]].
  - inversion Hex as [? ? [x Hx] | ? ? Hrest]; subst; [discriminate |].
    clear Hall Hex. induction Hvs as [| w ws Hw Hws IH]; [inversion Hrest |].
    cbn [map fold_left]. destruct Hw as [-> | [y ->]]; cbn [py_gt fgtb].
    + inversion Hrest as [? ? [x Hx] | ? ? Hrest']; subst; [discriminate |].
      exact (IH Hrest').
    + destruct (max_after_finite ws Hws y) as [mx ->]. eauto.
  - destruct (max_after_finite vs Hvs x) as [mx ->]. eauto.
Qed.

(** With a finite maximum, tracks at [-inf] add nothing to a mixture. *)
Lemma add_tracks_null_excluded (mx : R) (p : tracks)
      (finals : list (geno * pyfloat)) :
  Forall2 (fun t f => fst f = fst t /\ final_loglik t = Ok (Some (snd f)))
          p finals ->
  Forall (fun f => if is_null (fst f) then snd f = NInf
                   else exists x, snd f = Fin x) finals ->
  forall a b : R,
    a = 0 ->
    exists a' b' : R,
      for_each (add_track (Some (Fin mx))) p (Fin a, Fin b)
      = Ok (Fin a', Fin b') /\ a' = 0.
Proof.
  induction 1 as [| t f p' fs [Hk Hl] _ IH]; intros Hall a b Ha.
  - exists a, b. split; [reflexivity | exact Ha].
  - inversion Hall as [| ? ? Hf Hfs]; subst. cbn [for_each].
    unfold add_track at 1. rewrite Hl. cbn [bind]. rewrite <- Hk.
    destruct (is_null (fst f)).
    + rewrite Hf. cbn [py_sub bind fsub fneg fadd fexp fdiv_lit].
      apply (IH Hfs). lra.
    + destruct Hf as [x ->]. cbn [py_sub bind fsub fneg fadd fexp fdiv_lit].
      apply (IH Hfs). reflexivity.
Qed.

(** X17.  When every track whose parents are both free of the dropout
    allele ends at [-inf] while the other tracks end at finite
    log-likelihoods, the H0 mixture is 0 and the trio likelihood ratio
    raises [ValueError] ([math.log(0)]). *)
Theorem pedigree_ratio_domain_error :
  forall (m : PedMarker) (finals : list (geno * pyfloat)),
    Forall2 (fun t f => fst f = fst t /\ final_loglik t = Ok (Some (snd f)))
            (param m) finals ->
    Forall (fun f => if is_null (fst f) then snd f = NInf
                     else exists x, snd f = Fin x) finals ->
    Exists (fun f => is_null (fst f) = false) finals ->
    likelihood_ratio m = Raise ValueError.
Proof.
  intros m finals Hfin Hall Hex. unfold likelihood_ratio.
  assert (Hcomp : comprehension final_loglik (param m)
                  = Ok (map (@Some pyfloat) (map snd finals))).
  { clear Hall Hex. induction Hfin as [| t f p' fs [_ Hl] _ IH];
      [reflexivity |].
    cbn [comprehension map]. rewrite Hl, IH. reflexivity. }
  rewrite Hcomp. cbn [bind].
  assert (Hvals : Forall (fun v => v = NInf \/ exists x, v = Fin x)
                         (map snd finals)).
  { apply Forall_map. eapply Forall_impl; [| exact Hall].
    intros f Hf. cbn beta in Hf. destruct (is_null (fst f)); auto. }
  assert (Hsome : Exists (fun v => exists x, v = Fin x) (map snd finals)).
  { apply Exists_exists. apply Exists_exists in Hex.
    destruct Hex as (f & Hin & Hf). exists (snd f). split; [apply in_map, Hin |].
    rewrite Forall_forall in Hall. specialize (Hall f Hin).
    rewrite Hf in Hall. exact Hall. }
  destruct (max_finite_or_neg_inf _ Hvals Hsome) as [mx ->]. cbn [bind].
  destruct (add_tracks_null_excluded mx _ _ Hfin Hall 0 0 eq_refl)
    as (a' & b' & -> & ->).
  cbn [bind flog]. rewrite Rltb_false by lra. reflexivity.
Qed.

Lemma null_excluded_finals_match :
  Forall2 (fun t f => fst f = fst t /\ final_loglik t = Ok (Some (snd f)))
          (param Inputs.null_excluded_marker) Inputs.null_excluded_finals.
Proof.
  unfold Inputs.null_excluded_marker. cbn [param].
  generalize Inputs.null_excluded_finals as fs. intro fs.
  induction fs as [| f fs IH]; cbn [map]; constructor;
    [split; reflexivity | exact IH].
Qed.

Lemma pedigree_ratio_domain_error_witness :
  likelihood_ratio Inputs.null_excluded_marker = Raise ValueError.
Proof.
  apply (pedigree_ratio_domain_error Inputs.null_excluded_marker
           Inputs.null_excluded_finals).
  - exact null_excluded_finals_match.
  - unfold Inputs.null_excluded_finals. apply Forall_map, Forall_forall.
    intros gt _. cbn [fst snd]. destruct (is_null gt); eauto.
  - apply Exists_exists. exists (dropout_parents, Fin (-3)).
    split; [| reflexivity]. unfold Inputs.null_excluded_finals.
    apply in_map_iff. exists dropout_parents. split; [reflexivity |].
    cbn. tauto.
Defined.

End TrioRatioErrors.

(* ================================================================== *)
(** * From calls to a marker *)
(* ================================================================== *)

Section NextProperties.

Import Call Next Scenario.

(** X18.  Flagging a call that carries no flag yet (as [CallData.__init__]
    leaves it) sets at most one of the three flags, the father's before
    the mother's before a child's, and touches nothing else: a sample is
    flagged father exactly when it is the family's father, mother exactly
    when it is the mother and not the father, child exactly when it is
    among the children and is neither parent. *)
Theorem roles_are_exclusive :
  forall (family : Ped.Family) (c : CallData),
    is_father c = false -> is_mother c = false -> is_child c = false ->
    sample (set_role family c) = sample c /\
    DP (set_role family c) = DP c /\
    PL (set_role family c) = PL c /\
    is_father (set_role family c) = String.eqb (sample c) (Ped.father family) /\
    is_mother (set_role family c)
    = negb (String.eqb (sample c) (Ped.father family))
      && String.eqb (sample c) (Ped.mother family) /\
    is_child (set_role family c)
    = negb (String.eqb (sample c) (Ped.father family))
      && negb (String.eqb (sample c) (Ped.mother family))
      && Ped.mem (sample c) (Ped.children family) /\
    (is_father (set_role family c) && is_mother (set_role family c) = false) /\
    (is_father (set_role family c) && is_child (set_role family c) = false) /\
    (is_mother (set_role family c) && is_child (set_role family c) = false).
Proof.
  intros family c Hf Hm Hc. unfold set_role.
  destruct (String.eqb (sample c) (Ped.father family));
    [| destruct (String.eqb (sample c) (Ped.mother family));
       [| destruct (Ped.mem (sample c) (Ped.children family))]];
    cbn [sample DP PL is_father is_mother is_child negb andb];
    rewrite ?Hf, ?Hm, ?Hc; repeat split; reflexivity.
Qed.

Lemma roles_are_exclusive_witness :
  sample (set_role Inputs.trio_family Inputs.call_dad) = sample Inputs.call_dad /\
  DP (set_role Inputs.trio_family Inputs.call_dad) = DP Inputs.call_dad /\
  PL (set_role Inputs.trio_family Inputs.call_dad) = PL Inputs.call_dad /\
  is_father (set_role Inputs.trio_family Inputs.call_dad)
  = String.eqb (sample Inputs.call_dad) (Ped.father Inputs.trio_family) /\
  is_mother (set_role Inputs.trio_family Inputs.call_dad)
  = negb (String.eqb (sample Inputs.call_dad) (Ped.father Inputs.trio_family))
    && String.eqb (sample Inputs.call_dad) (Ped.mother Inputs.trio_family) /\
  is_child (set_role Inputs.trio_family Inputs.call_dad)
  = negb (String.eqb (sample Inputs.call_dad) (Ped.father Inputs.trio_family))
    && negb (String.eqb (sample Inputs.call_dad) (Ped.mother Inputs.trio_family))
    && Ped.mem (sample Inputs.call_dad) (Ped.children Inputs.trio_family) /\
  (is_father (set_role Inputs.trio_family Inputs.call_dad)
   && is_mother (set_role Inputs.trio_family Inputs.call_dad) = false) /\
  (is_father (set_role Inputs.trio_family Inputs.call_dad)
   && is_child (set_role Inputs.trio_family Inputs.call_dad) = false) /\
  (is_mother (set_role Inputs.trio_family Inputs.call_dad)
   && is_child (set_role Inputs.trio_family Inputs.call_dad) = false).
Proof.
  apply (roles_are_exclusive Inputs.trio_family Inputs.call_dad); reflexivity.
Defined.

Lemma prepare_calls_keeps (dpmode : bool) (family : option Ped.Family)
      (cs : list CallData) :
  map sample (prepare_calls dpmode family cs) = map sample cs /\
  map DP (prepare_calls dpmode family cs) = map DP cs /\
  (dpmode = true -> Forall (fun c => PL c = None) (prepare_calls dpmode family cs)).
Proof.
  unfold prepare_calls.
  assert (Hrole : forall fam c,
             sample (set_role fam c) = sample c /\
             DP (set_role fam c) = DP c /\ PL (set_role fam c) = PL c).
  { intros fam c. unfold set_role.
    destruct (String.eqb (sample c) (Ped.father fam));
      [| destruct (String.eqb (sample c) (Ped.mother fam));
         [| destruct (Ped.mem (sample c) (Ped.children fam))]];
      repeat split; reflexivity. }
  repeat split.
  - destruct family as [fam |], dpmode; rewrite ?map_map; try reflexivity;
      apply map_ext; intro c;
      first [reflexivity | rewrite (proj1 (Hrole _ _)); reflexivity].
  - destruct family as [fam |], dpmode; rewrite ?map_map; try reflexivity;
      apply map_ext; intro c;
      first [reflexivity | rewrite (proj1 (proj2 (Hrole _ _))); reflexivity].
  - intros ->. destruct family as [fam |].
    + apply Forall_map, Forall_map, Forall_forall. intros c _.
      rewrite (proj2 (proj2 (Hrole fam (clear_PL c)))). reflexivity.
    + apply Forall_map, Forall_forall. intros c _. reflexivity.
Qed.

(** X19.  Preparing the calls changes neither the samples nor their depths.
    In depth-only mode every call loses its genotype likelihoods, so that,
    without a family, the marker is built with the depth-only seeds
    [phi1 = [0.99, 0, 0.01]], [phi0 = [1, 0, 0]] and its construction
    cannot raise, whatever [AF] holds. *)
Theorem depth_only_mode_seeds :
  forall (info : Unrelated.AF_info) (dpmode : bool)
         (family : option Ped.Family) (cs : list CallData)
         (slope intercept : R),
    map sample (prepare_calls dpmode family cs) = map sample cs /\
    map DP (prepare_calls dpmode family cs) = map DP cs /\
    (dpmode = true ->
     Forall (fun c => PL c = None) (prepare_calls dpmode family cs)) /\
    (dpmode = true -> family = None ->
     exists m,
       make_marker info dpmode family cs slope intercept = Ok (UnrelatedMarker m) /\
       map Unrelated.phi (Unrelated.param_H1 m)
       = [[Fin (1 - 0.01); Fin 0; Fin 0.01]] /\
       map Unrelated.phi (Unrelated.param_H0 m) = [[Fin 1; Fin 0; Fin 0]]).
Proof.
  intros info dpmode family cs slope intercept.
  destruct (prepare_calls_keeps dpmode family cs) as (Hs & Hd & Hpl).
  repeat split; try assumption.
  intros -> ->. unfold make_marker.
  assert (Hno : Forall (fun c => has_PL c = false) (prepare_calls true None cs)).
  { eapply Forall_impl; [| exact (Hpl eq_refl)].
    intros c Hc. unfold has_PL. rewrite Hc. reflexivity. }
  destruct (Marker_init_seeds info (prepare_calls true None cs) slope intercept
              [Fin (1 - 0.01); Fin 0; Fin 0.01] [Fin 1; Fin 0; Fin 0])
    as (m & -> & H1 & H0).
  { unfold Unrelated.seed_phi. rewrite (dp_mode_true _ Hno). reflexivity. }
  exists m. repeat split; assumption.
Qed.

Lemma depth_only_mode_seeds_witness :
  exists m,
    make_marker (Some [None]) true None [call_with_PL; call_without_PL] 0 2.5
    = Ok (UnrelatedMarker m) /\
    map Unrelated.phi (Unrelated.param_H1 m)
    = [[Fin (1 - 0.01); Fin 0; Fin 0.01]] /\
    map Unrelated.phi (Unrelated.param_H0 m) = [[Fin 1; Fin 0; Fin 0]].
Proof.
  apply (proj2 (proj2 (proj2
           (depth_only_mode_seeds (Some [None]) true None
              [call_with_PL; call_without_PL] 0 2.5))));
    reflexivity.
Defined.

End NextProperties.

(* ================================================================== *)
(** * Normalization factors *)
(* ================================================================== *)

Section NormProperties.

Import Call Norm.

Lemma key_eqb_eq (a b : key) : key_eqb a b = true <-> a = b.
Proof.
  destruct a as [s [x |]], b as [s' [y |]]; unfold key_eqb; cbn [fst snd];
    rewrite andb_true_iff, String.eqb_eq, ?Z.eqb_eq; split;
    try (intros [-> ?]; subst; reflexivity);
    try (intros [_ H]; discriminate H);
    try (intro H; injection H as -> ->; split; reflexivity);
    try (intro H; injection H as ->; split; reflexivity);
    try (intro H; discriminate H).
Qed.

Lemma key_eqb_refl (a : key) : key_eqb a a = true.
Proof. apply key_eqb_eq. reflexivity. Qed.

Lemma key_eqb_neq (a b : key) : a <> b -> key_eqb a b = false.
Proof.
  intro H. destruct (key_eqb a b) eqn:E; [| reflexivity].
  apply key_eqb_eq in E. contradiction.
Qed.

Lemma getitem_setitem (d : table) (k q : key) (v : R) :
  getitem (setitem d k v) q = if key_eqb k q then Ok v else getitem d q.
Proof.
  induction d as [| [k0 v0] rest IH]; cbn [setitem getitem]; [reflexivity |].
  destruct (key_eqb k0 k) eqn:E0; cbn [getitem].
  - apply key_eqb_eq in E0. subst k0. destruct (key_eqb k q); reflexivity.
  - destruct (key_eqb k0 q) eqn:E1; [| exact IH].
    apply key_eqb_eq in E1. subst k0. rewrite key_eqb_neq; [reflexivity |].
    intros ->. rewrite key_eqb_refl in E0. discriminate.
Qed.

(** A row leaves alone the keys of other samples and of other inserts. *)
Lemma store_row_other (samples : list string) (insert : option Z)
      (nf_row : list R) (q : key) :
  ~ In (fst q) samples \/ snd q <> insert ->
  forall d, getitem (store_row samples insert nf_row d) q = getitem d q.
Proof.
  unfold store_row. revert nf_row.
  induction samples as [| s ss IH]; intros nf_row H d; [reflexivity |].
  destruct nf_row as [| v vs]; [reflexivity |]. cbn [combine fold_left fst snd].
  rewrite IH.
  - rewrite getitem_setitem, key_eqb_neq; [reflexivity |].
    intros <-. cbn [fst snd] in H. destruct H as [H | H];
      [apply H; left; reflexivity | apply H; reflexivity].
  - destruct H as [H | H]; [left; intro Hin; apply H; right; exact Hin
                           | right; exact H].
Qed.

(** A row stores, for each sample of the header, the factor in the same
    column. *)
Lemma store_row_column (samples : list string) (insert : option Z) :
  NoDup samples ->
  forall (nf_row : list R) (j : nat) (s : string) (v : R) (d : table),
    nth_error samples j = Some s ->
    nth_error nf_row j = Some v ->
    getitem (store_row samples insert nf_row d) (s, insert) = Ok v.
Proof.
  unfold store_row.
  induction 1 as [| s0 ss Hnotin _ IH]; intros nf_row j s v d Hs Hv;
    [destruct j; discriminate |].
  destruct nf_row as [| v0 vs]; [destruct j; discriminate |].
  cbn [combine fold_left fst snd]. destruct j as [| j]; cbn [nth_error] in Hs, Hv.
  - injection Hs as ->. injection Hv as ->.
    fold (store_row ss insert vs (setitem d (s, insert) v)).
    rewrite store_row_other by (left; exact Hnotin).
    rewrite getitem_setitem, key_eqb_refl. reflexivity.
  - exact (IH vs j s v _ Hs Hv).
Qed.

Lemma for_each_app {A B : Type} (body : B -> A -> result B)
      (xs ys : list A) (acc : B) :
  for_each body (xs ++ ys) acc
  = bind (for_each body xs acc) (for_each body ys).
Proof.
  revert acc. induction xs as [| x xs IH]; intro acc; [reflexivity |].
  cbn [app for_each]. destruct (body acc x); cbn [bind]; [apply IH | reflexivity].
Qed.

Section WithParsers.

Variable int_of_str : string -> result Z.
Variable float_of_str : string -> result R.

(** Rows of other inserts leave the keys of an insert alone. *)
Lemma read_rows_other (samples : list string) (q : key)
      (rows : list (list string)) :
  Forall (fun fields =>
            match fields with
            | field :: _ => insert_of int_of_str field <> Ok (snd q)
            | [] => True
            end) rows ->
  forall d t,
    for_each (read_row int_of_str float_of_str samples) rows d = Ok t ->
    getitem t q = getitem d q.
Proof.
  induction 1 as [| fields rows Hf _ IH]; intros d t H.
  - injection H as <-. reflexivity.
  - apply for_each_cons_ok in H. destruct H as (d' & Hrow & Hrest).
    rewrite (IH _ _ Hrest). destruct fields as [| field rest]; [discriminate |].
    cbn [read_row] in Hrow.
    destruct (insert_of int_of_str field) as [insert |]; cbn [bind] in Hrow;
      [| discriminate].
    destruct (comprehension float_of_str rest) as [nf_row |];
      cbn [bind] in Hrow; [| discriminate].
    injection Hrow as <-. apply store_row_other. right. congruence.
Qed.

Lemma store_row_NA_only (samples : list string) (nf_row : list R) :
  forall d,
    Forall (fun kv => snd (fst kv) = None) d ->
    Forall (fun kv => snd (fst kv) = None) (store_row samples None nf_row d).
Proof.
  unfold store_row. generalize (combine samples nf_row) as svs.
  induction svs as [| [s v] svs IH]; intros d Hd; [exact Hd |].
  cbn [fold_left fst snd]. apply IH. clear IH.
  induction Hd as [| [k0 v0] rest Hk Hrest IHd]; cbn [setitem].
  - constructor; [reflexivity | constructor].
  - destruct (key_eqb k0 (s, None)); constructor;
      [exact Hk | exact Hrest | exact Hk | exact IHd].
Qed.

Lemma getitem_NA_only (d : table) (name : string) (z : Z) :
  Forall (fun kv => snd (fst kv) = None) d ->
  getitem d (name, Some z) = Raise KeyError.
Proof.
  induction 1 as [| [[s ins] v] rest Hk _ IH]; [reflexivity |].
  cbn [fst snd] in Hk. subst ins. cbn [getitem]. unfold key_eqb at 1.
  cbn [fst snd]. rewrite andb_false_r. exact IH.
Qed.

End WithParsers.

(** X20.  A normalization table is dropped when the samples of its header
    are not the reader's samples, and when a row is blank; without a
    table, and for a call without an insert size, the factor is 1.0. *)
Theorem dropped_norm_table_gives_unit_factors :
  forall (int_of_str : string -> result Z) (float_of_str : string -> result R)
         (self_samples header : list string) (rows : list (list string)),
    (same_set (tl header) self_samples = false ->
     reader_normfactors
       (parse_norm int_of_str float_of_str self_samples header rows) = None) /\
    (In [] rows ->
     reader_normfactors
       (parse_norm int_of_str float_of_str self_samples header rows) = None) /\
    (forall name INS, lookup_NF None name INS = 1.0) /\
    (forall t name, lookup_NF t name None = 1.0).
Proof.
  intros int_of_str float_of_str self_samples header rows.
  split; [| split; [| split]].
  - intro H. unfold parse_norm.
    destruct (for_each (read_row int_of_str float_of_str (tl header)) rows []);
      cbn [bind]; [rewrite H |]; reflexivity.
  - intro Hin. unfold parse_norm.
    destruct (for_each_raises
                (read_row int_of_str float_of_str (tl header)) rows [] Hin
                (fun d => ex_intro _ IndexError eq_refl) []) as [e ->].
    reflexivity.
  - intros name [v |]; reflexivity.
  - intros t name. reflexivity.
Qed.

Lemma dropped_norm_table_gives_unit_factors_witness :
  reader_normfactors
    (parse_norm Inputs.read_int Inputs.read_float ["s1"; "s3"]%string
                Inputs.norm_header Inputs.norm_rows) = None /\
  reader_normfactors
    (parse_norm Inputs.read_int Inputs.read_float ["s1"; "s2"]%string
                Inputs.norm_header [[]]) = None.
Proof.
  split.
  - apply (proj1 (dropped_norm_table_gives_unit_factors
                    Inputs.read_int Inputs.read_float ["s1"; "s3"]%string
                    Inputs.norm_header Inputs.norm_rows)).
    reflexivity.
  - apply (proj1 (proj2 (dropped_norm_table_gives_unit_factors
                           Inputs.read_int Inputs.read_float
                           ["s1"; "s2"]%string Inputs.norm_header [[]]))).
    left. reflexivity.
Defined.

(** X21.  The factors of a row marked [NA] are stored under the insert
    [None], and the reader looks a factor up under [int(call.INS)], never
    under [None]: entries with the insert [None] change no lookup, and a
    table read from [NA] rows only gives the factor 1.0 to every call. *)
Theorem NA_rows_are_never_looked_up :
  forall (int_of_str : string -> result Z) (float_of_str : string -> result R),
    (forall (t : table) (name : string) (INS : option pynum),
       lookup_NF (Some t) name INS
       = lookup_NF
           (Some (filter (fun kv => match snd (fst kv) with
                                    | Some _ => true
                                    | None => false
                                    end) t)) name INS) /\
    (forall (self_samples header : list string) (rows : list (list string))
            (t : table),
       Forall (fun fields => exists rest, fields = "NA"%string :: rest) rows ->
       parse_norm int_of_str float_of_str self_samples header rows = Ok (Some t) ->
       forall name INS, lookup_NF (Some t) name INS = 1.0).
Proof.
  intros int_of_str float_of_str. split.
  - intros t name [v |]; [| reflexivity]. unfold lookup_NF. cbn [bind].
    assert (E : forall q,
               getitem (filter (fun kv => match snd (fst kv) with
                                          | Some _ => true
                                          | None => false
                                          end) t) (name, Some q)
               = getitem t (name, Some q)).
    { intro q. induction t as [| [[s ins] w] rest IH]; [reflexivity |].
      cbn [filter fst snd]. destruct ins as [x |]; cbn [getitem].
      - rewrite IH. reflexivity.
      - rewrite IH. unfold key_eqb at 1. cbn [fst snd].
        rewrite andb_false_r. reflexivity. }
    rewrite E. reflexivity.
  - intros self_samples header rows t Hrows H name INS.
    assert (Hna : Forall (fun kv => snd (fst kv) = None) t).
    { unfold parse_norm in H.
      destruct (for_each (read_row int_of_str float_of_str (tl header)) rows [])
        as [d |] eqn:E; cbn [bind] in H; [| discriminate].
      destruct (same_set (tl header) self_samples); [| discriminate].
      injection H as <-. revert E.
      assert (Hinit : Forall (fun kv : key * R => snd (fst kv) = None) [])
        by constructor.
      revert Hinit. generalize (@nil (key * R)) as d0.
      induction Hrows as [| fields rows' [rest ->] _ IH]; intros d0 Hd0 E.
      - injection E as <-. exact Hd0.
      - apply for_each_cons_ok in E. destruct E as (d1 & Hrow & Hrest).
        apply (IH d1); [| exact Hrest].
        cbn [read_row] in Hrow. unfold insert_of in Hrow.
        cbn [String.eqb Ascii.eqb Bool.eqb andb bind] in Hrow.
        destruct (comprehension float_of_str rest) as [nf_row |];
          cbn [bind] in Hrow; [| discriminate].
        injection Hrow as <-. apply store_row_NA_only. exact Hd0. }
    destruct INS as [v |]; [| reflexivity]. unfold lookup_NF. cbn [bind].
    rewrite (getitem_NA_only t name (py_int v) Hna). reflexivity.
Qed.

Lemma NA_rows_are_never_looked_up_witness :
  exists t,
    parse_norm Inputs.read_int Inputs.read_float ["s1"; "s2"]%string
               Inputs.norm_header Inputs.norm_rows_NA = Ok (Some t) /\
    forall name INS, lookup_NF (Some t) name INS = 1.0.
Proof.
  eexists. split; [reflexivity |].
  apply (proj2 (NA_rows_are_never_looked_up Inputs.read_int Inputs.read_float)
               ["s1"; "s2"]%string Inputs.norm_header Inputs.norm_rows_NA).
  - constructor; [eexists; reflexivity | constructor].
  - reflexivity.
Defined.

(** X22.  Reading a normalization file and looking a factor up agree: for
    a row with a numeric insert, the sample in column [j] of the header
    (sample names not repeated) gets the factor in column [j] of that row,
    unless a later row repeats the insert. *)
Theorem norm_table_round_trip :
  forall (int_of_str : string -> result Z) (float_of_str : string -> result R)
         (self_samples header : list string)
         (pre post : list (list string)) (field : string)
         (vals : list string) (t : table) (z : Z) (nf_row : list R)
         (j : nat) (s : string) (v : R),
    parse_norm int_of_str float_of_str self_samples header
               (pre ++ (field :: vals) :: post) = Ok (Some t) ->
    insert_of int_of_str field = Ok (Some z) ->
    comprehension float_of_str vals = Ok nf_row ->
    Forall (fun fields =>
              match fields with
              | f :: _ => insert_of int_of_str f <> Ok (Some z)
              | [] => True
              end) post ->
    NoDup (tl header) ->
    nth_error (tl header) j = Some s ->
    nth_error nf_row j = Some v ->
    lookup_NF (Some t) s (Some (PyInt z)) = v.
Proof.
  intros int_of_str float_of_str self_samples header pre post field vals
         t z nf_row j s v H Hins Hvals Hpost Hnd Hs Hv.
  unfold parse_norm in H. rewrite for_each_app in H.
  destruct (for_each (read_row int_of_str float_of_str (tl header)) pre [])
    as [d0 |]; cbn [bind] in H; [| discriminate].
  cbn [for_each read_row] in H. rewrite Hins, Hvals in H. cbn [bind] in H.
  destruct (for_each (read_row int_of_str float_of_str (tl header)) post _)
    as [d |] eqn:E; cbn [bind] in H; [| discriminate].
  destruct (same_set (tl header) self_samples); [| discriminate].
  injection H as <-.
  unfold lookup_NF. cbn [bind py_int].
  rewrite (read_rows_other int_of_str float_of_str (tl header) (s, Some z)
             post Hpost _ _ E).
  rewrite (store_row_column (tl header) (Some z) Hnd nf_row j s v d0 Hs Hv).
  reflexivity.
Qed.

Lemma norm_table_round_trip_witness :
  exists t,
    parse_norm Inputs.read_int Inputs.read_float ["s2"; "s1"]%string
               Inputs.norm_header Inputs.norm_rows = Ok (Some t) /\
    lookup_NF (Some t) "s2" (Some (PyInt 300)) = 0.8.
Proof.
  eexists. split; [reflexivity |].
  apply (norm_table_round_trip Inputs.read_int Inputs.read_float
           ["s2"; "s1"]%string Inputs.norm_header
           [] [["NA"; "1.5"; "0.8"]%string] "300" ["1.5"; "0.8"]%string
           _ 300%Z [1.5; 0.8] 1%nat "s2" 0.8).
  - reflexivity.
  - reflexivity.
  - reflexivity.
  - constructor; [discriminate | constructor].
  - repeat constructor; cbn; intuition discriminate.
  - reflexivity.
  - reflexivity.
Defined.

End NormProperties.

(* ================================================================== *)
(** * Genotype strings and records *)
(* ================================================================== *)

Section FormatProperties.

Import Call Format Scenario.

Lemma genotype_eqb_eq (a b : Trio.genotype) : genotype_eqb a b = true <-> a = b.
Proof.
  destruct a as [[a0 a1] a2], b as [[b0 b1] b2]. unfold genotype_eqb.
  rewrite !andb_true_iff, !Z.eqb_eq. split.
  - intros [[-> ->] ->]. reflexivity.
  - intro H. injection H as -> -> ->. repeat split.
Qed.

Lemma formatted_in (g : Trio.genotype) (s : string) :
  formatted g = Ok s -> In (g, s) GT_FORMATTED.
Proof.
  unfold formatted.
  destruct (find (fun kv => genotype_eqb (fst kv) g) GT_FORMATTED)
    as [[g' s'] |] eqn:E; [| discriminate].
  intro H. injection H as <-. apply find_some in E. destruct E as [Hin Heq].
  apply genotype_eqb_eq in Heq. cbn [fst] in Heq. subst g'. exact Hin.
Qed.

(** X23.  [GT_FORMATTED] has a string for every genotype of two alleles
    (three non-negative counts adding up to 2) and for nothing else, and
    different genotypes have different strings. *)
Theorem GT_FORMATTED_covers_diploid_genotypes :
  (forall a b c : Z,
     (0 <= a)%Z -> (0 <= b)%Z -> (0 <= c)%Z -> (a + b + c = 2)%Z ->
     exists s, formatted (a, b, c) = Ok s) /\
  (forall (a b c : Z) (s : string),
     formatted (a, b, c) = Ok s ->
     (0 <= a)%Z /\ (0 <= b)%Z /\ (0 <= c)%Z /\ (a + b + c = 2)%Z) /\
  (forall (g g' : Trio.genotype) (s : string),
     formatted g = Ok s -> formatted g' = Ok s -> g = g') /\
  (forall (g : Trio.genotype) (e : exn), formatted g = Raise e -> e = KeyError).
Proof.
  split; [| split; [| split]].
  - intros a b c Ha Hb Hc Hsum.
    assert (Ea : (a = 0 \/ a = 1 \/ a = 2)%Z) by lia.
    assert (Eb : (b = 0 \/ b = 1 \/ b = 2)%Z) by lia.
    destruct Ea as [-> | [-> | ->]], Eb as [-> | [-> | ->]];
      try (exfalso; lia);
      match goal with
      | |- context [formatted (?x, ?y, c)] =>
          replace c with (2 - x - y)%Z by lia
      end;
      eexists; reflexivity.
  - intros a b c s H. apply formatted_in in H. cbn in H.
    repeat destruct H as [H | H]; try contradiction;
      injection H as <- <- <- _; lia.
  - intros g g' s H H'. apply formatted_in in H, H'. cbn in H, H'.
    repeat destruct H as [H | H]; try contradiction;
      repeat destruct H' as [H' | H']; try contradiction;
      injection H as <- <-; first [discriminate H' | injection H' as <-; reflexivity].
  - intros g e. unfold formatted.
    destruct (find _ GT_FORMATTED); intro H; [discriminate |].
    injection H as <-. reflexivity.
Qed.

Lemma GT_FORMATTED_covers_diploid_genotypes_witness :
  (exists s, formatted (1, 0, 1)%Z = Ok s) /\
  ((0 <= 1)%Z /\ (0 <= 0)%Z /\ (0 <= 1)%Z /\ (1 + 0 + 1 = 2)%Z).
Proof.
  split.
  - apply (proj1 GT_FORMATTED_covers_diploid_genotypes); lia.
  - apply (proj1 (proj2 GT_FORMATTED_covers_diploid_genotypes) _ _ _ "0/."%string).
    reflexivity.
Defined.

(** X24.  A record as [CallData.__init__] builds it carries no family
    flag, has depth 0 when no depth or [None] is given, and never has an
    empty list of genotype likelihoods: they are present exactly when a
    non-empty list is given, with one integer per entry. *)
Theorem CallData_init_invariants :
  forall (name : string) (kw_DP : option (option Z))
         (kw_PL : option (option (list pynum))),
    let c := CallData_init name kw_DP kw_PL in
    sample c = name /\
    is_father c = false /\ is_mother c = false /\ is_child c = false /\
    (kw_DP = None \/ kw_DP = Some None -> DP c = 0%Z) /\
    (forall d, kw_DP = Some (Some d) -> DP c = d) /\
    PL c <> Some [] /\
    (has_PL c = true <-> PL c <> None) /\
    (forall pl, PL c = Some pl ->
                exists given,
                  kw_PL = Some (Some given) /\ given <> [] /\
                  pl = map py_int given /\
                  List.length pl = List.length given) /\
    (forall given, kw_PL = Some (Some given) -> given <> [] ->
                   PL c = Some (map py_int given)) /\
    (kw_PL = None \/ kw_PL = Some None \/ kw_PL = Some (Some []) ->
     PL c = None).
Proof.
  intros name kw_DP kw_PL c. subst c. unfold CallData_init, has_PL.
  cbn [sample DP PL is_father is_mother is_child].
  repeat split; try reflexivity.
  - intros [-> | ->]; reflexivity.
  - intros d ->. reflexivity.
  - destruct kw_PL as [[[| x xs] |] |]; discriminate.
  - destruct kw_PL as [[[| x xs] |] |]; cbn [map]; congruence.
  - destruct kw_PL as [[[| x xs] |] |]; cbn [map]; congruence.
  - intros pl H. destruct kw_PL as [[[| x xs] |] |]; try discriminate.
    injection H as <-. exists (x :: xs).
    split; [reflexivity | split; [discriminate | split; [reflexivity |]]].
    cbn [map List.length]. rewrite length_map. reflexivity.
  - intros given -> Hne. destruct given as [| x xs]; [contradiction |].
    reflexivity.
  - intros [-> | [-> | ->]]; reflexivity.
Qed.

Lemma CallData_init_invariants_witness :
  DP (CallData_init "s" (Some None) (Some (Some [PyInt 0; PyInt 30]))) = 0%Z /\
  PL (CallData_init "s" (Some None) (Some (Some [PyInt 0; PyInt 30])))
  = Some [0; 30]%Z /\
  (exists given,
      Some (Some [PyInt 0; PyInt 30]) = Some (Some given) /\ given <> [] /\
      [0; 30]%Z = map py_int given /\
      List.length [0; 30]%Z = List.length given) /\
  PL (CallData_init "s" (Some (Some 7%Z)) (Some (Some []))) = None /\
  DP (CallData_init "s" (Some (Some 7%Z)) (Some (Some []))) = 7%Z.
Proof.
  pose proof (CallData_init_invariants
                "s" (Some None) (Some (Some [PyInt 0; PyInt 30])))
    as (_ & _ & _ & _ & Hdp & _ & _ & _ & Hpl & Hgiven & _).
  pose proof (CallData_init_invariants
                "s" (Some (Some 7%Z)) (Some (Some [])))
    as (_ & _ & _ & _ & _ & Hdp' & _ & _ & _ & _ & Hnone).
  split; [| split; [| split; [| split]]].
  - apply Hdp. right. reflexivity.
  - apply (Hgiven [PyInt 0; PyInt 30]); [reflexivity | discriminate].
  - apply Hpl. reflexivity.
  - apply Hnone. right. right. reflexivity.
  - apply Hdp'. reflexivity.
Defined.

End FormatProperties.

Section MoreWitnesses.

Import Call Scenario.

Lemma Marker_init_raises_iff_witness :
  Unrelated.Marker_init (Some [None]) [call_with_PL] 0 2.5 = Raise TypeError.
Proof.
  destruct (Marker_init_raises_iff (Some [None]) [call_with_PL] 0 2.5)
    as [Hkind Hiff].
  destruct (proj2 Hiff (conj eq_refl (ex_intro _ [] eq_refl))) as [e He].
  rewrite He. f_equal. exact (Hkind e He).
Defined.

Lemma likelihood_ratio_defined_iff_witness :
  Unrelated.likelihood_ratio marker_fitted <> None.
Proof.
  apply (proj2 (proj1 (likelihood_ratio_defined_iff marker_fitted))).
  exists (fitted (-15)), (fitted (-12)), (Fin (-15)), (Fin (-12)).
  repeat split; reflexivity.
Defined.

End MoreWitnesses.
